(** * photo_renamer: a shallow embedding of [main.py] and its specification

    The script lists a directory, keeps the photo files, reads the EXIF tags
    of each one, derives a date and an address from them and renames the
    file.  The embedding follows [main.py] function by function.

    - Python exceptions are explicit: a computation returns [Ok v] or
      [Raise e], and [try ... except E] catches exactly the exception [E].
    - The outside world (command line, directory listing, EXIF reader,
      geocoder, rename) is an environment record [Env]; every call into it is
      recorded in a trace of [event]s, so that "no geocoding call" and "no
      rename" are statements about the trace.
    - Python floats are IEEE 754 binary64 numbers, taken from the
      specification of floats of the Standard Library ([SpecFloat]).
    - The EXIF dictionary is a finite map from tag names to tag objects. *)

From Stdlib Require Import ZArith QArith String Ascii List Bool Lia.
From Stdlib Require Import Floats.SpecFloat.
From stdpp Require Import gmap strings.
Import ListNotations.

Local Open Scope string_scope.
Local Open Scope list_scope.

(** ** Python values, exceptions and results *)

Module Py.

(** The exceptions the script can meet.  [OSError] stands for the failures
    of the file system and [GeocoderError] for those of the geocoding
    service. *)
Inductive exn : Type :=
| AttributeError
| KeyError
| IndexError
| TypeError
| ValueError
| ZeroDivisionError
| OSError
| GeocoderError.

Definition is_AttributeError (e : exn) : bool :=
  match e with AttributeError => true | _ => false end.
Definition is_KeyError (e : exn) : bool :=
  match e with KeyError => true | _ => false end.
Definition is_IndexError (e : exn) : bool :=
  match e with IndexError => true | _ => false end.

Inductive result (A : Type) : Type :=
| Ok (a : A)
| Raise (e : exn).
Arguments Ok {A} a.
Arguments Raise {A} e.

Definition rbind {A B} (r : result A) (k : A -> result B) : result B :=
  match r with
  | Ok a => k a
  | Raise e => Raise e
  end.

(** [try: body except E: handler], for the exceptions selected by [sel]. *)
Definition try_except {A} (body : result A) (sel : exn -> bool)
    (handler : result A) : result A :=
  match body with
  | Ok a => Ok a
  | Raise e => if sel e then handler else Raise e
  end.

(** [l[i]] on a Python list. *)
Definition list_item {A} (l : list A) (i : nat) : result A :=
  match nth_error l i with
  | Some a => Ok a
  | None => Raise IndexError
  end.

(** *** Strings *)

Definition upper_case (c : ascii) : bool :=
  (Nat.leb 65 (nat_of_ascii c) && Nat.leb (nat_of_ascii c) 90)%bool.

Definition lower_ascii (c : ascii) : ascii :=
  if upper_case c then ascii_of_nat (nat_of_ascii c + 32) else c.

(** [s.lower()] *)
Fixpoint lower (s : string) : string :=
  match s with
  | EmptyString => EmptyString
  | String c t => String (lower_ascii c) (lower t)
  end.

(** [s.endswith(suffix)] *)
Fixpoint endswith (s suffix : string) : bool :=
  if String.eqb s suffix then true
  else match s with
       | EmptyString => false
       | String _ t => endswith t suffix
       end.

(** [s.endswith(suffixes)] with a tuple of suffixes. *)
Definition endswith_any (s : string) (suffixes : list string) : bool :=
  existsb (endswith s) suffixes.

(** [s.split(sep)] for a separator of one character: the list of the
    segments between the separators, never empty. *)
Fixpoint split (sep : ascii) (s : string) : list string :=
  match s with
  | EmptyString => [EmptyString]
  | String c t =>
      let r := split sep t in
      if Ascii.eqb c sep then EmptyString :: r
      else String c (hd EmptyString r) :: tl r
  end.

(** [s.replace(old, new)] where [old] and [new] are one character each. *)
Fixpoint replace (old new : ascii) (s : string) : string :=
  match s with
  | EmptyString => EmptyString
  | String c t =>
      String (if Ascii.eqb c old then new else c) (replace old new t)
  end.

(** [os.path.join(a, b)] on POSIX. *)
Definition path_join (a b : string) : string :=
  match b with
  | String "/" _ => b
  | _ => if String.eqb a "" || endswith a "/" then a +:+ b
         else a +:+ "/" +:+ b
  end.

End Py.
Import Py.

(** ** Python floats: IEEE 754 binary64 *)

Module Float64.

Definition prec : Z := 53.
Definition emax : Z := 1024.

Definition float : Type := spec_float.

(** [float(n)] for an integer [n], rounded to nearest even. *)
Definition of_Z (n : Z) : float := binary_normalize prec emax n 0 false.

Definition add : float -> float -> float := SFadd prec emax.
Definition div : float -> float -> float := SFdiv prec emax.
Definition neg : float -> float := SFopp.

(** [float(q)] for a fraction [q]: Python computes
    [q.numerator / q.denominator], the correctly rounded quotient.  The
    components of an EXIF rational are 32-bit integers, which [of_Z]
    converts without rounding. *)
Definition of_Q (q : Q) : float :=
  div (of_Z (Qnum q)) (of_Z (Zpos (Qden q))).

Definition zero : float := S754_zero false.

(** [x >= 0.0] *)
Definition nonneg (x : float) : bool := SFleb zero x.

(** [x == 0], which holds of both zeros. *)
Definition is_zero (x : float) : bool := SFeqb x zero.

(** Truth value of a float: false exactly on the two zeros. *)
Definition truthy (x : float) : bool :=
  match x with
  | S754_zero _ => false
  | _ => true
  end.

(** The sign bit, for the values that have one. *)
Definition sign_is (s : bool) (x : float) : Prop :=
  match x with
  | S754_zero s' | S754_infinity s' | S754_finite s' _ _ => s' = s
  | S754_nan => False
  end.

End Float64.
Import Float64.

(** ** EXIF tags

    [exifread.process_file] returns a dictionary from tag names to tag
    objects.  An [IfdTag] has a [values] attribute; the values modelled are
    the string of an ASCII field and the list of numbers of the other
    fields.  A number is an integer or a ratio: exifread makes a ratio of
    the two integers it reads and keeps a denominator that is zero, so a
    ratio is a numerator and a denominator that may be zero, and an integer
    [k] is the ratio [k/1].  The dictionary also holds objects that are no
    [IfdTag] and have no [values] attribute, such as the bytes of the
    thumbnail. *)

Record ratio : Type := mkRatio {
  numerator : Z;
  denominator : N
}.

Inductive values_t : Type :=
| VStr (s : string)
| VList (l : list ratio).

Inductive tag_obj : Type :=
| IfdTag (values : values_t)
| Bytes (b : string).

(** [tag.values] *)
Definition get_values (t : tag_obj) : result values_t :=
  match t with
  | IfdTag v => Ok v
  | Bytes _ => Raise AttributeError
  end.

(** An element of [tag.values]: a number of a list or a character of a
    string. *)
Inductive item_t : Type :=
| Num (r : ratio)
| Chr (c : ascii).

(** [values[i]] *)
Definition values_item (v : values_t) (i : nat) : result item_t :=
  match v with
  | VList l => rbind (list_item l i) (fun q => Ok (Num q))
  | VStr s => rbind (list_item (list_ascii_of_string s) i) (fun c => Ok (Chr c))
  end.

Definition digit_value (c : ascii) : option Z :=
  let n := nat_of_ascii c in
  if (Nat.leb 48 n && Nat.leb n 57)%bool then Some (Z.of_nat (n - 48)) else None.

(** [float(x)]: for a number, the quotient of the numerator by the
    denominator, correctly rounded, and [ZeroDivisionError] when the
    denominator is zero. *)
Definition float_of_item (x : item_t) : result float :=
  match x with
  | Num r => match denominator r with
             | N0 => Raise ZeroDivisionError
             | Npos p => Ok (of_Q (Qred (numerator r # p)))
             end
  | Chr c => match digit_value c with
             | Some d => Ok (of_Z d)
             | None => Raise ValueError
             end
  end.

(** [x / k] for a positive integer literal [k]: the fraction with the
    denominator multiplied by [k].  On a denominator of zero, the Pythons
    whose fractions check the denominator raise [ZeroDivisionError] here, and
    the others give a fraction of denominator zero, on which [float] raises
    the same error in the next step; the model takes the second course, and
    nothing happens between the two steps. *)
Definition item_div (x : item_t) (k : positive) : result item_t :=
  match x with
  | Num r => Ok (Num (mkRatio (numerator r) (denominator r * Npos k)))
  | Chr _ => Raise TypeError
  end.

(** [values in ('S', 'W')] *)
Definition in_S_W (v : values_t) : bool :=
  match v with
  | VStr s => (String.eqb s "S" || String.eqb s "W")%bool
  | VList _ => false
  end.

(** [values.split(' ')]: a list has no [split]. *)
Definition values_split (v : values_t) (sep : ascii) : result (list string) :=
  match v with
  | VStr s => Ok (split sep s)
  | VList _ => Raise AttributeError
  end.

(** ** The pure functions of [main.py] *)

Record ParsedExif : Type := mkParsedExif {
  date : option string;
  address : option string
}.

Definition get_exif_date (date_tag : tag_obj) : result (option string) :=
  try_except
    (rbind (get_values date_tag) (fun values =>
     rbind (values_split values " ") (fun parts =>
     rbind (list_item parts 0) (fun first =>
     Ok (Some (replace ":" "-" first))))))
    is_AttributeError
    (Ok None).

Definition get_get_gps_coords (gps_tag gps_ref : tag_obj)
    : result (option float) :=
  try_except
    (rbind (get_values gps_tag) (fun v0 =>
     rbind (values_item v0 0) (fun x0 =>
     rbind (float_of_item x0) (fun f0 =>
     rbind (get_values gps_tag) (fun v1 =>
     rbind (values_item v1 1) (fun x1 =>
     rbind (item_div x1 60) (fun y1 =>
     rbind (float_of_item y1) (fun f1 =>
     rbind (get_values gps_tag) (fun v2 =>
     rbind (values_item v2 2) (fun x2 =>
     rbind (item_div x2 3600) (fun y2 =>
     rbind (float_of_item y2) (fun f2 =>
     let coord := add (add f0 f1) f2 in
     rbind (get_values gps_ref) (fun r =>
     let coord := if in_S_W r then neg coord else coord in
     Ok (Some coord))))))))))))))
    is_AttributeError
    (Ok None).

Definition get_photo_files_of (file_names : list string) : list string :=
  let photo_extensions := [".jpg"; ".jpeg"; ".heic"] in
  List.filter (fun f => endswith_any (lower f) photo_extensions) file_names.

(** ** The outside world and the effects *)

(** What the script calls outside itself.  Each function gives the outcome
    of the call: a value or an exception. *)
Record Env : Type := mkEnv {
  argv : list string;
  getcwd : string;
  listdir : string -> result (list string);
  (** [open(photo, 'rb')] followed by [exifread.process_file] *)
  process_file : string -> result (gmap string tag_obj);
  (** [Nominatim.reverse((lat, lon), zoom=8)]: the [address] of the location
      found, or [None] when the service finds nothing *)
  reverse : float -> float -> result (option string);
  rename : string -> string -> result unit
}.

Inductive event : Type :=
| EvListdir (wdir : string)
| EvOpen (photo : string)
| EvReverse (lat lon : float)
| EvRename (src dst : string).

(** A computation with effects: its outcome and the calls it made, oldest
    first. *)
Definition M (A : Type) : Type := (result A * list event)%type.

Definition ret {A} (a : A) : M A := (Ok a, []).

Definition lift {A} (r : result A) : M A := (r, []).

Definition call {A} (ev : event) (r : result A) : M A := (r, [ev]).

Definition bind {A B} (m : M A) (k : A -> M B) : M B :=
  match fst m with
  | Ok a => (fst (k a), snd m ++ snd (k a))
  | Raise e => (Raise e, snd m)
  end.

Notation "'let*' x ':=' m 'in' k" := (bind m (fun x => k))
  (at level 10, x name, m at level 100, k at level 200).

(** [try: body except E: handler else: orelse] *)
Definition try_except_else {A B} (body : M A) (sel : exn -> bool)
    (handler : M B) (orelse : A -> M B) : M B :=
  match fst body with
  | Ok a => (fst (orelse a), snd body ++ snd (orelse a))
  | Raise e =>
      if sel e then (fst handler, snd body ++ snd handler)
      else (Raise e, snd body)
  end.

(** [for x in l: body(x)] *)
Fixpoint for_each {A} (l : list A) (body : A -> M unit) : M unit :=
  match l with
  | [] => ret tt
  | x :: l' => let* _ := body x in for_each l' body
  end.

(** [key in d] and [d[key]] on a dictionary. *)
Definition dict_contains (d : gmap string tag_obj) (key : string) : bool :=
  match d !! key with
  | Some _ => true
  | None => false
  end.

Definition dict_item (d : gmap string tag_obj) (key : string) : result tag_obj :=
  match d !! key with
  | Some v => Ok v
  | None => Raise KeyError
  end.

(** The string of a [str | None] when its truth value is true. *)
Definition when_true (o : option string) : option string :=
  match o with
  | Some s => if String.eqb s "" then None else Some s
  | None => None
  end.

(** [location.address]: [None] has no [address]. *)
Definition location_address (location : option string) : result string :=
  match location with
  | Some a => Ok a
  | None => Raise AttributeError
  end.

(** How the top level of the script ends: it runs to its last line, or it
    calls [sys.exit] with a message. *)
Inductive ending : Type :=
| Finished
| SysExit (msg : string).

(** What the process writes on the standard error when it ends. *)
Inductive stderr_t : Type :=
| Silent
| Message (msg : string)
| Traceback (e : exn).

(** The exit status of the process: 0 at the end of the script, 1 after
    [sys.exit] with a string and after an exception nobody caught. *)
Definition exit_status (r : result ending) : Z :=
  match r with
  | Ok Finished => 0
  | Ok (SysExit _) => 1
  | Raise _ => 1
  end.

Definition exit_stderr (r : result ending) : stderr_t :=
  match r with
  | Ok Finished => Silent
  | Ok (SysExit msg) => Message msg
  | Raise e => Traceback e
  end.

(** The photos opened in a trace, and the renames of a trace. *)
Definition opened (t : list event) : list string :=
  flat_map (fun ev => match ev with EvOpen p => [p] | _ => [] end) t.

Definition is_rename (ev : event) : bool :=
  match ev with EvRename _ _ => true | _ => false end.

(** The first statement of [parse_exif_data]: the value it gives to
    [image_taken_date]. *)
Definition image_taken_date_of (tags : gmap string tag_obj)
    : result (option string) :=
  if dict_contains tags "EXIF DateTimeOriginal" then
    rbind (dict_item tags "EXIF DateTimeOriginal") get_exif_date
  else if dict_contains tags "EXIF DateTimeDigitized" then
    rbind (dict_item tags "EXIF DateTimeDigitized") get_exif_date
  else if dict_contains tags "EXIF SceneCaptureType" then
    rbind (dict_item tags "EXIF SceneCaptureType") get_exif_date
  else Ok None.

(** The [try] block of [parse_exif_data]: the two coordinates. *)
Definition gps_coords_of (tags : gmap string tag_obj)
    : result (option float * option float) :=
  rbind (dict_item tags "GPS GPSLatitude") (fun lat_tag =>
  rbind (dict_item tags "GPS GPSLatitudeRef") (fun lat_ref =>
  rbind (get_get_gps_coords lat_tag lat_ref) (fun latitude =>
  rbind (dict_item tags "GPS GPSLongitude") (fun lon_tag =>
  rbind (dict_item tags "GPS GPSLongitudeRef") (fun lon_ref =>
  rbind (get_get_gps_coords lon_tag lon_ref) (fun longitude =>
  Ok (latitude, longitude))))))).

(** ** The functions of [main.py] that act on the world *)

Section Script.

Variable env : Env.

Definition get_working_dir : string :=
  let wdir := tl (argv env) in
  match wdir with
  | d :: _ => d
  | [] => getcwd env
  end.

Definition get_photo_files (wdir : string) : M (list string) :=
  let* file_names := call (EvListdir wdir) (listdir env wdir) in
  ret (get_photo_files_of file_names).

Definition get_exif_data (photo : string) : M (gmap string tag_obj) :=
  call (EvOpen photo) (process_file env photo).

Definition get_address (lat lon : float) : M string :=
  let* location := call (EvReverse lat lon) (reverse env lat lon) in
  lift (try_except
          (rbind (location_address location) (fun a =>
           list_item (split "," a) 0))
          is_IndexError
          (location_address location)).

(** [latitude and longitude] is true when both are floats and neither is
    zero; [None] is false. *)
Definition parse_exif_data (tags : gmap string tag_obj) : M ParsedExif :=
  let* image_taken_date := lift (image_taken_date_of tags) in
  let* address :=
    try_except_else
      (lift (gps_coords_of tags))
      is_KeyError
      (ret None)
      (fun '(latitude, longitude) =>
         match latitude, longitude with
         | Some lat, Some lon =>
             if (truthy lat && truthy lon)%bool then
               let* a := get_address lat lon in ret (Some a)
             else ret None
         | _, _ => ret None
         end) in
  ret (mkParsedExif image_taken_date address).

Definition rename_photo (wdir old_name : string)
    (new_name_values : ParsedExif) : M unit :=
  match when_true (date new_name_values) with
  | Some d =>
      let new_name := d in
      let new_name :=
        match when_true (address new_name_values) with
        | Some a => new_name +:+ "-" +:+ a
        | None => new_name
        end in
      let new_name := new_name +:+ "_" +:+ old_name in
      call (EvRename (path_join wdir old_name) (path_join wdir new_name))
           (rename env (path_join wdir old_name) (path_join wdir new_name))
  | None => ret tt
  end.

(** The body of the loop of the script, for one photo. *)
Definition process_photo (workdir photo_file : string) : M unit :=
  let* exif_data := get_exif_data (path_join workdir photo_file) in
  if Nat.eqb (size exif_data) 0 then ret tt
  else
    let* parsed_exif := parse_exif_data exif_data in
    rename_photo workdir photo_file parsed_exif.

Definition main : M ending :=
  let workdir := get_working_dir in
  let* photo_files := get_photo_files workdir in
  match photo_files with
  | [] => ret (SysExit "No photos found")
  | _ =>
      let* _ := for_each photo_files (process_photo workdir) in
      ret Finished
  end.

End Script.

(** ** The vocabulary of the specification *)

(** [s] ends with [suffix], letters compared without regard to case. *)
Definition ends_with_nocase (s suffix : string) : Prop :=
  exists pre suf, s = pre +:+ suf /\ lower suf = lower suffix.

(** A name with one of the allowed extensions. *)
Definition photo_name (f : string) : Prop :=
  ends_with_nocase f ".jpg" \/ ends_with_nocase f ".jpeg" \/
  ends_with_nocase f ".heic".

Fixpoint has_char (c : ascii) (s : string) : bool :=
  match s with
  | EmptyString => false
  | String c' t => (Ascii.eqb c' c || has_char c t)%bool
  end.

(** [r] is the part of [s] before the first [sep], all of [s] when [s] has
    no [sep]. *)
Definition before_first (sep : ascii) (s r : string) : Prop :=
  has_char sep r = false /\
  (s = r \/ exists rest, s = r +:+ String sep rest).

(** Every character of [s] equal to [old] is [new] in [r], the others are
    unchanged. *)
Definition replaced (old new : ascii) (s r : string) : Prop :=
  String.length r = String.length s /\
  forall i, String.get i r =
            match String.get i s with
            | Some c => Some (if Ascii.eqb c old then new else c)
            | None => None
            end.

(** The date field the extractor reads: the first one present, in the order
    original capture, digitized, scene capture type. *)
Definition chosen_date_tag (tags : gmap string tag_obj) : option tag_obj :=
  match tags !! "EXIF DateTimeOriginal" with
  | Some t => Some t
  | None =>
      match tags !! "EXIF DateTimeDigitized" with
      | Some t => Some t
      | None => tags !! "EXIF SceneCaptureType"
      end
  end.

(** A tag whose value is a string. *)
Definition string_like (t : tag_obj) : Prop :=
  exists s, t = IfdTag (VStr s).

(** The four GPS tags are in the mapping. *)
Definition has_gps_tags (tags : gmap string tag_obj) : Prop :=
  is_Some (tags !! "GPS GPSLatitude") /\
  is_Some (tags !! "GPS GPSLatitudeRef") /\
  is_Some (tags !! "GPS GPSLongitude") /\
  is_Some (tags !! "GPS GPSLongitudeRef").

(** The components an EXIF rational can hold: two unsigned 32-bit
    integers, the denominator zero included. *)
Definition exif_rational (r : ratio) : Prop :=
  (0 <= numerator r < 2 ^ 32)%Z /\ (denominator r < 2 ^ 32)%N.

(** The fraction a ratio stands for, when its denominator is not zero. *)
Definition ratio_value (r : ratio) : option Q :=
  match denominator r with
  | N0 => None
  | Npos p => Some (numerator r # p)
  end.

(** A ratio whose denominator is zero. *)
Definition zero_den (r : ratio) : bool := N.eqb (denominator r) 0.

(** The unsigned decimal degrees of a degrees, minutes, seconds triple of
    fractions: the float of the degrees, plus the float of the sixtieth of
    the minutes, plus the float of the 3600th of the seconds, in floating
    point. *)
Definition dms_degrees (d m s : Q) : float :=
  add (add (of_Q (Qred d)) (of_Q (Qred (m / inject_Z 60))))
      (of_Q (Qred (s / inject_Z 3600))).

(** The new name in the words of the specification: the date, then the
    address after a dash when there is one, then the original name after an
    underscore; no name when there is no date. *)
Definition spec_new_name (p : ParsedExif) (original_name : string)
    : option string :=
  match date p with
  | None => None
  | Some d =>
      match address p with
      | None => Some (d +:+ "_" +:+ original_name)
      | Some a => Some (d +:+ "-" +:+ a +:+ "_" +:+ original_name)
      end
  end.

(** What [rename_photo] does when it renames to [new_name]: one call of
    [os.rename] inside the working directory, with the outcome of that
    call. *)
Definition renames_to (env : Env) (wdir old_name new_name : string) : M unit :=
  (rename env (path_join wdir old_name) (path_join wdir new_name),
   [EvRename (path_join wdir old_name) (path_join wdir new_name)]).

(** Two characters that are the same character, or the same letter of the
    alphabet in its two cases. *)
Definition same_nocase (a b : ascii) : Prop :=
  a = b \/
  exists i, i < 26 /\
    ((a = ascii_of_nat (65 + i) /\ b = ascii_of_nat (97 + i)) \/
     (a = ascii_of_nat (97 + i) /\ b = ascii_of_nat (65 + i))).

(** Two strings that are the same, case set aside. *)
Inductive eq_nocase : string -> string -> Prop :=
| eq_nocase_nil : eq_nocase "" ""
| eq_nocase_cons (a b : ascii) (s t : string) :
    same_nocase a b -> eq_nocase s t -> eq_nocase (String a s) (String b t).

(** The extensions of the photos, and a name that ends with one of them,
    case set aside. *)
Definition allowed_extensions : list string := [".jpg"; ".jpeg"; ".heic"].

Definition has_extension (f ext : string) : Prop :=
  exists stem suf, f = stem +:+ suf /\ eq_nocase suf ext.

Definition candidate_name (f : string) : Prop :=
  exists ext, In ext allowed_extensions /\ has_extension f ext.

(** An object without a [values] attribute. *)
Definition no_values (t : tag_obj) : Prop := exists b, t = Bytes b.

(** The names of the four GPS tags. *)
Definition gps_keys : list string :=
  ["GPS GPSLatitude"; "GPS GPSLatitudeRef";
   "GPS GPSLongitude"; "GPS GPSLongitudeRef"].

(** ** Sample data *)

Module Sample.

Definition date_time : tag_obj := IfdTag (VStr "2023:07:04 12:30:00").
Definition scene_type : tag_obj := IfdTag (VList [mkRatio 0 1]).
Definition north : tag_obj := IfdTag (VStr "N").
Definition east : tag_obj := IfdTag (VStr "E").
Definition west : tag_obj := IfdTag (VStr "W").

(** 39 deg 46 min 54.12 s, and 89 deg 39 min 0 s. *)
Definition lat_dms : tag_obj :=
  IfdTag (VList [mkRatio 39 1; mkRatio 46 1; mkRatio 5412 100]).
Definition lon_dms : tag_obj :=
  IfdTag (VList [mkRatio 89 1; mkRatio 39 1; mkRatio 0 1]).
Definition zero_dms : tag_obj :=
  IfdTag (VList [mkRatio 0 1; mkRatio 0 1; mkRatio 0 1]).
Definition empty_dms : tag_obj := IfdTag (VList []).

(** A latitude whose seconds have a denominator of zero. *)
Definition zero_den_dms : tag_obj :=
  IfdTag (VList [mkRatio 39 1; mkRatio 46 1; mkRatio 5412 0]).

Definition tags_springfield : gmap string tag_obj :=
  <["EXIF DateTimeOriginal" := date_time]>
  (<["GPS GPSLatitude" := lat_dms]>
  (<["GPS GPSLatitudeRef" := north]>
  (<["GPS GPSLongitude" := lon_dms]>
  (<["GPS GPSLongitudeRef" := west]> ∅)))).

(** A photo taken on the equator. *)
Definition tags_equator : gmap string tag_obj :=
  <["EXIF DateTimeOriginal" := date_time]>
  (<["GPS GPSLatitude" := zero_dms]>
  (<["GPS GPSLatitudeRef" := north]>
  (<["GPS GPSLongitude" := lon_dms]>
  (<["GPS GPSLongitudeRef" := east]> ∅)))).

(** The latitude has a value and no reference. *)
Definition tags_no_lat_ref : gmap string tag_obj :=
  <["EXIF DateTimeOriginal" := date_time]>
  (<["GPS GPSLatitude" := lat_dms]>
  (<["GPS GPSLongitude" := lon_dms]>
  (<["GPS GPSLongitudeRef" := west]> ∅))).

(** The latitude has no component and the longitude is missing. *)
Definition tags_empty_lat : gmap string tag_obj :=
  <["EXIF DateTimeOriginal" := date_time]>
  (<["GPS GPSLatitude" := empty_dms]>
  (<["GPS GPSLatitudeRef" := north]> ∅)).

(** The reference of the latitude has a value that is no hemisphere. *)
Definition tags_odd_ref : gmap string tag_obj :=
  <["EXIF DateTimeOriginal" := date_time]>
  (<["GPS GPSLatitude" := lat_dms]>
  (<["GPS GPSLatitudeRef" := IfdTag (VStr "??")]>
  (<["GPS GPSLongitude" := lon_dms]>
  (<["GPS GPSLongitudeRef" := west]> ∅)))).

(** The original date is no string and the digitized date is one. *)
Definition tags_bad_original : gmap string tag_obj :=
  <["EXIF DateTimeOriginal" := scene_type]>
  (<["EXIF DateTimeDigitized" := date_time]> ∅).

Definition tags_date_only : gmap string tag_obj :=
  <["EXIF DateTimeDigitized" := date_time]> ∅.

(** A directory of three entries, two of them photos, read without
    trouble; the geocoder knows one place. *)
Definition env_ok : Env :=
  {| argv := ["main.py"; "/photos"];
     getcwd := "/home/user";
     listdir := fun _ => Ok ["Photo.JPG"; "notes.txt"; "b.heic"];
     process_file := fun p =>
       if String.eqb p "/photos/Photo.JPG" then Ok tags_springfield
       else Ok tags_date_only;
     reverse := fun _ _ => Ok (Some "Springfield, Illinois, USA");
     rename := fun _ _ => Ok tt |}.

(** A directory whose only candidate cannot be read. *)
Definition env_unreadable : Env :=
  {| argv := ["main.py"];
     getcwd := "/photos";
     listdir := fun _ => Ok ["album.jpg"];
     process_file := fun _ => Raise OSError;
     reverse := fun _ _ => Ok None;
     rename := fun _ _ => Ok tt |}.

End Sample.

(** ** Further vocabulary *)

(** A function applied to the value of a result. *)
Definition rmap {A B} (f : A -> B) (r : result A) : result B :=
  match r with
  | Ok a => Ok (f a)
  | Raise e => Raise e
  end.

(** [x <= 0.0] *)
Definition nonpos (x : float) : bool := SFleb x zero.

(** The directories listed, the geocoder calls and the renames of a trace,
    oldest first. *)
Definition listed (t : list event) : list string :=
  flat_map (fun ev => match ev with EvListdir d => [d] | _ => [] end) t.

Definition reverse_calls (t : list event) : list (float * float) :=
  flat_map (fun ev => match ev with EvReverse la lo => [(la, lo)] | _ => [] end) t.

Definition renames (t : list event) : list (string * string) :=
  flat_map (fun ev => match ev with EvRename s d => [(s, d)] | _ => [] end) t.

(** [s] begins with the character [c]. *)
Definition starts_with (c : ascii) (s : string) : bool :=
  match s with
  | String c' _ => Ascii.eqb c' c
  | EmptyString => false
  end.

(** The directory part that [os.path.join] puts before a name that does
    not begin with a slash. *)
Definition dir_prefix (a : string) : string :=
  if (String.eqb a "" || endswith a "/")%bool then a else a +:+ "/".

(** More sample data. *)
Module Cases.

(** A geocoder that is out of reach, and one that finds nothing. *)
Definition env_geocoder_down : Env :=
  {| argv := ["main.py"; "/photos"];
     getcwd := "/home/user";
     listdir := fun _ => Ok ["Photo.JPG"];
     process_file := fun _ => Ok Sample.tags_springfield;
     reverse := fun _ _ => Raise GeocoderError;
     rename := fun _ _ => Ok tt |}.

Definition env_nothing_found : Env :=
  {| argv := ["main.py"; "/photos"];
     getcwd := "/home/user";
     listdir := fun _ => Ok ["Photo.JPG"];
     process_file := fun _ => Ok Sample.tags_springfield;
     reverse := fun _ _ => Ok None;
     rename := fun _ _ => Ok tt |}.

(** A directory that cannot be listed. *)
Definition env_no_directory : Env :=
  {| argv := ["main.py"; "/missing"];
     getcwd := "/home/user";
     listdir := fun _ => Raise OSError;
     process_file := fun _ => Ok Sample.tags_date_only;
     reverse := fun _ _ => Ok None;
     rename := fun _ _ => Ok tt |}.

(** A date field that holds only a time, after a space. *)
Definition tags_blank_date : gmap string tag_obj :=
  <["EXIF DateTimeOriginal" := IfdTag (VStr " 12:30:00")]> ∅.

(** A directory whose only photo has such a date. *)
Definition env_blank_date : Env :=
  {| argv := ["main.py"];
     getcwd := "/photos";
     listdir := fun _ => Ok ["a.jpg"];
     process_file := fun _ => Ok tags_blank_date;
     reverse := fun _ _ => Ok None;
     rename := fun _ _ => Ok tt |}.

End Cases.

(** ** Strings *)

Section StringFacts.

#[local] Arguments String.append : simpl nomatch.

Lemma append_nil_r (s : string) : s +:+ "" = s.
Proof. induction s as [|c s IH]; simpl; [reflexivity | now rewrite IH]. Qed.

Lemma append_assoc (a b c : string) : (a +:+ b) +:+ c = a +:+ (b +:+ c).
Proof. induction a as [|x a IH]; simpl; [reflexivity | now rewrite IH]. Qed.

Lemma endswith_refl (s : string) : endswith s s = true.
Proof. destruct s; cbn [endswith]; now rewrite String.eqb_refl. Qed.

Lemma endswith_spec (s suffix : string) :
  endswith s suffix = true <-> exists pre, s = pre +:+ suffix.
Proof.
  induction s as [|c s IH].
  - cbn [endswith]. destruct (String.eqb_spec "" suffix) as [E|E].
    + split; [intros _; exists ""; now subst | reflexivity].
    + split; [discriminate |].
      intros [pre H]. destruct pre; simpl in H; [now subst | discriminate].
  - cbn [endswith]. destruct (String.eqb_spec (String c s) suffix) as [E|E].
    + split; [intros _; exists ""; now subst | reflexivity].
    + rewrite IH. split.
      * intros [pre H]. exists (String c pre). simpl. now rewrite H.
      * intros [pre H]. destruct pre as [|x pre]; simpl in H.
        -- now subst.
        -- injection H as _ H. now exists pre.
Qed.

Lemma lower_app (a b : string) : lower (a +:+ b) = lower a +:+ lower b.
Proof. induction a as [|c a IH]; simpl; [reflexivity | now rewrite IH]. Qed.

(** A split of [lower s] comes from a split of [s]. *)
Lemma lower_app_inv (s a b : string) :
  lower s = a +:+ b ->
  exists pre suf, s = pre +:+ suf /\ lower pre = a /\ lower suf = b.
Proof.
  revert s. induction a as [|c a IH]; intros s H.
  - exists "", s. now simpl in *.
  - destruct s as [|x s]; simpl in H; [discriminate |].
    injection H as Hc H. destruct (IH _ H) as (pre & suf & -> & Ha & Hb).
    exists (String x pre), suf. simpl. now rewrite Ha, Hc.
Qed.

Lemma endswith_lower_spec (f ext : string) :
  lower ext = ext ->
  endswith (lower f) ext = true <-> ends_with_nocase f ext.
Proof.
  intros Hext. rewrite endswith_spec. unfold ends_with_nocase. split.
  - intros [pre H]. destruct (lower_app_inv _ _ _ H) as (p & s & -> & _ & Hs).
    exists p, s. now rewrite Hext.
  - intros (p & s & -> & Hs). exists (lower p).
    now rewrite lower_app, Hs, Hext.
Qed.

Lemma is_photo_spec (f : string) :
  endswith_any (lower f) [".jpg"; ".jpeg"; ".heic"] = true <-> photo_name f.
Proof.
  unfold endswith_any, photo_name. cbn [existsb].
  rewrite !orb_true_iff, !endswith_lower_spec by reflexivity.
  intuition discriminate.
Qed.

Lemma split_not_nil (sep : ascii) (s : string) : split sep s <> [].
Proof. destruct s as [|c s]; simpl; [|destruct (Ascii.eqb c sep)]; discriminate. Qed.

(** The first segment of a split is the part before the first separator. *)
Lemma split_hd (sep : ascii) (s : string) :
  before_first sep s (hd "" (split sep s)).
Proof.
  unfold before_first. induction s as [|c s [IHn IHs]]; simpl.
  - split; [reflexivity | now left].
  - destruct (Ascii.eqb_spec c sep) as [->|Hc]; simpl.
    + split; [reflexivity |]. right. now exists s.
    + split.
      * rewrite IHn. now destruct (Ascii.eqb_spec c sep).
      * destruct IHs as [E | [rest E]].
        -- left. now rewrite <- E.
        -- right. exists rest. now rewrite E at 1.
Qed.

Lemma before_first_no_sep (sep : ascii) (s r : string) :
  has_char sep s = false -> before_first sep s r -> r = s.
Proof.
  intros Hs [_ [E | [rest E]]]; [now subst |]. exfalso. subst s.
  induction r as [|c r IH]; simpl in Hs.
  - now rewrite Ascii.eqb_refl in Hs.
  - apply orb_false_iff in Hs. tauto.
Qed.

(** The part before the first separator is unique. *)
Lemma before_first_unique (sep : ascii) (s r1 r2 : string) :
  before_first sep s r1 -> before_first sep s r2 -> r1 = r2.
Proof.
  revert r1 r2. induction s as [|c s IH]; intros r1 r2 [N1 H1] [N2 H2].
  - assert (forall r, (("" = r) \/ exists rest, "" = r +:+ String sep rest) -> r = "") as K.
    { intros r [E | [rest E]]; [now subst |]. destruct r; discriminate. }
    now rewrite (K _ H1), (K _ H2).
  - assert (forall r, has_char sep r = false ->
              (String c s = r \/ exists rest, String c s = r +:+ String sep rest) ->
              (r = "" /\ c = sep) \/
              (exists r', r = String c r' /\ c <> sep /\ before_first sep s r')) as K.
    { intros r N [E | [rest E]].
      - subst r. simpl in N. apply orb_false_iff in N as [Nc N].
        right. exists s. repeat split; [|assumption | now left].
        intros ->. now rewrite Ascii.eqb_refl in Nc.
      - destruct r as [|x r]; simpl in E.
        + left. injection E as -> _. now split.
        + injection E as -> E. simpl in N. apply orb_false_iff in N as [Nc N].
          right. exists r. repeat split; [|assumption | right; now exists rest].
          intros ->. now rewrite Ascii.eqb_refl in Nc. }
    destruct (K _ N1 H1) as [[-> E1] | (r1' & -> & D1 & B1)];
      destruct (K _ N2 H2) as [[-> E2] | (r2' & -> & D2 & B2)];
      try reflexivity; try contradiction.
    f_equal. now apply IH.
Qed.

Lemma replace_spec (old new : ascii) (s : string) :
  replaced old new s (replace old new s).
Proof.
  unfold replaced. induction s as [|c s [IHl IHg]]; simpl.
  - split; [reflexivity | now intros i].
  - split; [now rewrite IHl |]. intros [|i]; [reflexivity | apply IHg].
Qed.

Lemma lower_ascii_same_nocase (a b : ascii) :
  lower_ascii a = b -> same_nocase a b.
Proof.
  unfold lower_ascii, upper_case. intros H.
  destruct (Nat.leb_spec 65 (nat_of_ascii a)) as [L|L]; cbn [andb] in H;
    [|now left].
  destruct (Nat.leb_spec (nat_of_ascii a) 90) as [U|U]; [|now left].
  right. exists (nat_of_ascii a - 65). split; [lia |]. left.
  replace (65 + (nat_of_ascii a - 65)) with (nat_of_ascii a) by lia.
  replace (97 + (nat_of_ascii a - 65)) with (nat_of_ascii a + 32) by lia.
  now rewrite ascii_nat_embedding.
Qed.

Lemma same_nocase_lower_ascii (a b : ascii) :
  same_nocase a b -> lower_ascii b = b -> lower_ascii a = b.
Proof.
  intros [->|(i & Hi & [[-> ->]|[-> ->]])] Hb; [exact Hb | |].
  - unfold lower_ascii, upper_case.
    rewrite nat_ascii_embedding by lia.
    destruct (Nat.leb_spec 65 (65 + i)); [|lia].
    destruct (Nat.leb_spec (65 + i) 90); [|lia].
    cbn [andb]. f_equal. lia.
  - exfalso. unfold lower_ascii, upper_case in Hb.
    rewrite nat_ascii_embedding in Hb by lia.
    destruct (Nat.leb_spec 65 (65 + i)); [|lia].
    destruct (Nat.leb_spec (65 + i) 90); [|lia].
    cbn [andb] in Hb. apply (f_equal nat_of_ascii) in Hb.
    rewrite !nat_ascii_embedding in Hb by lia. lia.
Qed.

(** For an extension without capital letter, to be equal to it case set
    aside is to be equal to it once in lower case. *)
Lemma eq_nocase_lower (suf ext : string) :
  lower ext = ext -> (eq_nocase suf ext <-> lower suf = ext).
Proof.
  revert suf. induction ext as [|b ext IH]; intros suf Hext.
  - split.
    + intros H. now inversion H.
    + destruct suf; [constructor | discriminate].
  - cbn [lower] in Hext. injection Hext as Hb Hext. split.
    + intros H. inversion H as [|a b' s t Hab Hst]; subst.
      cbn [lower]. f_equal; [now apply same_nocase_lower_ascii |].
      now apply IH.
    + destruct suf as [|a suf]; [discriminate |]. cbn [lower].
      intros [= Ha Hs]. constructor; [now apply lower_ascii_same_nocase |].
      now apply IH.
Qed.

Lemma has_extension_spec (f ext : string) :
  lower ext = ext -> (has_extension f ext <-> ends_with_nocase f ext).
Proof.
  intros Hext. unfold has_extension, ends_with_nocase. rewrite Hext.
  split; intros (stem & suf & -> & H); exists stem, suf;
    (split; [reflexivity |]); now apply (eq_nocase_lower suf ext Hext).
Qed.

Lemma candidate_name_spec (f : string) : candidate_name f <-> photo_name f.
Proof.
  unfold candidate_name, photo_name, allowed_extensions.
  rewrite <- !has_extension_spec by reflexivity. split.
  - intros (ext & [<-|[<-|[<-|[]]]] & H); auto.
  - intros [H|[H|H]]; eexists; (split; [|exact H]); cbn; auto.
Qed.

Lemma is_candidate_spec (f : string) :
  endswith_any (lower f) [".jpg"; ".jpeg"; ".heic"] = true <->
  candidate_name f.
Proof. now rewrite is_photo_spec, candidate_name_spec. Qed.

End StringFacts.

(** ** Floats: signs *)

Section FloatFacts.

Lemma shr_1_nonneg (mrs : shr_record) :
  (0 <= shr_m mrs)%Z -> (0 <= shr_m (shr_1 mrs))%Z.
Proof.
  destruct mrs as [m r s]. simpl.
  destruct m as [|[p|p|]|p]; simpl; lia.
Qed.

Lemma iter_pos_invariant {A} (P : A -> Prop) (f : A -> A) :
  (forall x, P x -> P (f x)) ->
  forall n x, P x -> P (SpecFloat.iter_pos f n x).
Proof.
  intros Hf. induction n as [n IH|n IH|]; intros x Hx; simpl; auto.
Qed.

Lemma shr_nonneg (mrs : shr_record) (e n : Z) :
  (0 <= shr_m mrs)%Z -> (0 <= shr_m (fst (shr mrs e n)))%Z.
Proof.
  intros H. destruct n as [|p|p]; simpl; try assumption.
  now apply (iter_pos_invariant (fun x => 0 <= shr_m x)%Z), H; apply shr_1_nonneg.
Qed.

Lemma shr_record_of_loc_m (m : Z) (l : location) :
  shr_m (shr_record_of_loc m l) = m.
Proof. now destruct l as [|[]]. Qed.

Lemma shr_fexp_nonneg (m e : Z) (l : location) :
  (0 <= m)%Z -> (0 <= shr_m (fst (shr_fexp prec emax m e l)))%Z.
Proof.
  intros H. unfold shr_fexp. apply shr_nonneg. now rewrite shr_record_of_loc_m.
Qed.

Lemma round_nearest_even_nonneg (m : Z) (l : location) :
  (0 <= m)%Z -> (0 <= round_nearest_even m l)%Z.
Proof.
  intros H. destruct l as [|[]]; simpl; try lia. destruct (Z.even m); lia.
Qed.

(** Rounding a non-negative mantissa gives a number with the sign asked
    for, and never a NaN. *)
Lemma binary_round_aux_sign (sx : bool) (mx ex : Z) (lx : location) :
  (0 <= mx)%Z -> sign_is sx (binary_round_aux prec emax sx mx ex lx).
Proof.
  intros H. unfold binary_round_aux.
  pose proof (shr_fexp_nonneg mx ex lx H) as H1.
  destruct (shr_fexp prec emax mx ex lx) as [mrs' e']. simpl in H1.
  pose proof (shr_fexp_nonneg _ e' loc_Exact
                (round_nearest_even_nonneg _ (loc_of_shr_record mrs') H1)) as H2.
  destruct (shr_fexp prec emax _ e' loc_Exact) as [mrs'' e'']. simpl in H2.
  destruct (shr_m mrs'') as [|m|m]; simpl; try reflexivity; try lia.
  now destruct (e'' <=? emax - prec)%Z.
Qed.

Lemma binary_round_sign (sx : bool) (mx : positive) (ex : Z) :
  sign_is sx (binary_round prec emax sx mx ex).
Proof.
  unfold binary_round. destruct (shl_align mx ex _) as [mz ez].
  now apply binary_round_aux_sign.
Qed.

Lemma of_Z_sign (n : Z) : (0 <= n)%Z -> sign_is false (of_Z n).
Proof.
  intros H. unfold of_Z. destruct n as [|p|p]; simpl; try reflexivity; try lia.
  apply binary_round_sign.
Qed.

(** The sum of two numbers with a clear sign bit has a clear sign bit. *)
Lemma add_sign (x y : float) :
  sign_is false x -> sign_is false y -> sign_is false (add x y).
Proof.
  destruct x as [sx|sx| |sx mx ex], y as [sy|sy| |sy my ey]; simpl;
    intros Hx Hy; subst; try reflexivity; try contradiction.
  unfold add, SFadd. cbn [cond_Zopp].
  destruct (shl_align mx ex _) as [m1 e1], (shl_align my ey _) as [m2 e2].
  cbn [fst]. cbn [Z.add binary_normalize]. apply binary_round_sign.
Qed.

Lemma digits2_pos_iter_xO (p d : positive) :
  digits2_pos (Pos.iter xO p d) = (digits2_pos p + d)%positive.
Proof.
  induction d as [|d IH] using Pos.peano_ind.
  - simpl. lia.
  - rewrite Pos.iter_succ. simpl. rewrite IH. lia.
Qed.

Lemma digits2_pos_bound (p : positive) (k : Z) :
  (0 <= k)%Z -> (Zpos p < 2 ^ k)%Z -> (Zpos (digits2_pos p) <= k)%Z.
Proof.
  revert k. induction p as [p IH|p IH|]; intros k Hk Hp.
  - assert (k = 0 \/ 0 < k)%Z as [->|K] by lia; [simpl in Hp; lia |].
    replace k with (Z.succ (k - 1)) in Hp by lia.
    rewrite Z.pow_succ_r in Hp by lia.
    specialize (IH (k - 1)%Z). simpl. lia.
  - assert (k = 0 \/ 0 < k)%Z as [->|K] by lia; [simpl in Hp; lia |].
    replace k with (Z.succ (k - 1)) in Hp by lia.
    rewrite Z.pow_succ_r in Hp by lia.
    specialize (IH (k - 1)%Z). simpl. lia.
  - assert (k = 0 \/ 0 < k)%Z as [->|K] by lia; [simpl in Hp; lia |].
    simpl. lia.
Qed.

(** An integer below [2^53] converts to a finite float. *)
Lemma of_Z_finite (n : Z) :
  (0 < n < 2 ^ 53)%Z -> exists m e, of_Z n = S754_finite false m e.
Proof.
  intros [Hn Hb]. destruct n as [|p|p]; try lia.
  pose proof (digits2_pos_bound p 53 ltac:(lia) Hb) as HD.
  unfold of_Z, binary_normalize, binary_round.
  assert (exists mz ez,
            shl_align p 0 (fexp prec emax (Zpos (digits2_pos p) + 0)) = (mz, ez) /\
            (fexp prec emax (Zpos (digits2_pos mz) + ez) - ez = 0)%Z /\
            (ez <= 0)%Z) as (mz & ez & -> & Hf & He).
  { unfold shl_align, fexp, emin, prec, emax.
    destruct (Z.max (Zpos (digits2_pos p) + 0 - 53) (3 - 1024 - 53) - 0)%Z
      as [|d|d] eqn:E.
    - exists p, 0%Z. repeat split; lia.
    - lia.
    - eexists _, _. split; [reflexivity |].
      rewrite digits2_pos_iter_xO. lia. }
  unfold binary_round_aux, shr_fexp. cbn [Zdigits2 shr_record_of_loc].
  rewrite Hf. cbn [shr shr_m loc_of_shr_record round_nearest_even Zdigits2].
  rewrite Hf. cbn [shr shr_m].
  destruct (Z.leb_spec ez (emax - prec)) as [_|K]; [now eexists _, _ |].
  unfold emax, prec in K. lia.
Qed.

Lemma div_eucl_nonneg (a b : Z) :
  (0 <= a)%Z -> (0 < b)%Z -> (0 <= fst (Z.div_eucl a b))%Z.
Proof.
  intros Ha Hb. pose proof (Z.div_pos a b Ha Hb) as H.
  unfold Z.div in H. now destruct (Z.div_eucl a b).
Qed.

(** The quotient of a number with a clear sign bit by a finite positive
    number has a clear sign bit. *)
Lemma div_sign (x : float) (my : positive) (ey : Z) :
  sign_is false x -> sign_is false (div x (S754_finite false my ey)).
Proof.
  destruct x as [sx|sx| |sx mx ex]; simpl; intros Hx; subst;
    try reflexivity; try contradiction.
  unfold div, SFdiv, SFdiv_core_binary. cbn [xorb].
  set (m' := match (ex - ey - _)%Z with Z0 => _ | Zpos _ => _ | Zneg _ => _ end).
  assert (0 <= m')%Z as Hm.
  { subst m'. destruct (ex - ey - _)%Z; try lia. apply Z.shiftl_nonneg. lia. }
  pose proof (div_eucl_nonneg m' (Zpos my) Hm ltac:(lia)) as Hq.
  destruct (Z.div_eucl m' (Zpos my)) as [q r]. simpl in Hq.
  now apply binary_round_aux_sign.
Qed.

(** A float with a clear sign bit is [>= 0.0]. *)
Lemma sign_nonneg (x : float) : sign_is false x -> nonneg x = true.
Proof. destruct x; simpl; intros H; subst; try reflexivity; contradiction. Qed.

Lemma truthy_false_iff (x : float) : truthy x = false <-> is_zero x = true.
Proof.
  destruct x as [[]|[]| |[] m e]; unfold is_zero, SFeqb; simpl; split;
    congruence.
Qed.

End FloatFacts.

(** ** Ratios *)

Section RatioFacts.

Lemma Qred_bounds (q : Q) :
  (0 <= Qnum q)%Z ->
  (0 <= Qnum (Qred q))%Z /\ (Zpos (Qden (Qred q)) <= Zpos (Qden q))%Z.
Proof.
  destruct q as [n d]. unfold Qred. cbn [Qnum Qden]. intros Hn.
  pose proof (Pos2Z.is_pos d) as Hpos.
  pose proof (Z.ggcd_correct_divisors n (Zpos d)) as Hd.
  pose proof (Z.ggcd_gcd n (Zpos d)) as Hg.
  pose proof (Z.gcd_nonneg n (Zpos d)) as Hp.
  destruct (Z.ggcd n (Zpos d)) as [g [aa bb]]. simpl in *.
  destruct Hd as [Ha Hb]. rewrite <- Hg in Hp. clear Hg.
  assert (0 < g)%Z as G by (destruct (Z.eq_dec g 0%Z); [subst g; lia | lia]).
  assert (0 < bb)%Z as B by nia.
  cbn [Qnum Qden].
  split.
  - destruct (Z.neg_nonneg_cases aa) as [K|K]; [nia | exact K].
  - rewrite Z2Pos.id by assumption. nia.
Qed.

(** The float of a non-negative ratio with a small denominator has a clear
    sign bit. *)
Lemma of_Q_sign (q : Q) :
  (0 <= Qnum q)%Z -> (Zpos (Qden q) < 2 ^ 53)%Z -> sign_is false (of_Q q).
Proof.
  intros Hn Hd. unfold of_Q.
  destruct (of_Z_finite (Zpos (Qden q)) ltac:(lia)) as (m & e & ->).
  apply div_sign, of_Z_sign, Hn.
Qed.

Lemma of_Q_Qred_sign (q : Q) :
  (0 <= Qnum q)%Z -> (Zpos (Qden q) < 2 ^ 53)%Z -> sign_is false (of_Q (Qred q)).
Proof.
  intros Hn Hd. destruct (Qred_bounds q Hn). apply of_Q_sign; lia.
Qed.

(** The fraction of the sixtieth, or of any such part, of a ratio. *)
Lemma Qred_div_literal (n : Z) (p k : positive) :
  Qred (n # (p * k)) = Qred ((n # p) / inject_Z (Zpos k)).
Proof.
  apply Qred_complete. unfold Qeq, Qdiv, Qmult, Qinv, inject_Z.
  cbn [Qnum Qden]. lia.
Qed.

Lemma ratio_value_Some (r : ratio) (q : Q) :
  ratio_value r = Some q ->
  exists p, denominator r = Npos p /\ q = numerator r # p.
Proof.
  unfold ratio_value. destruct (denominator r) as [|p]; [discriminate |].
  intros [= <-]. now exists p.
Qed.

Lemma zero_den_false (r : ratio) :
  zero_den r = false -> exists q, ratio_value r = Some q.
Proof.
  unfold zero_den, ratio_value. destruct (denominator r); [discriminate |].
  intros _. now eexists.
Qed.

Lemma dms_degrees_sign (d m s : ratio) (qd qm qs : Q) :
  exif_rational d -> exif_rational m -> exif_rational s ->
  ratio_value d = Some qd -> ratio_value m = Some qm ->
  ratio_value s = Some qs ->
  sign_is false (dms_degrees qd qm qs).
Proof.
  intros [[Hd _] Dd] [[Hm _] Dm] [[Hs _] Ds] Vd Vm Vs.
  apply ratio_value_Some in Vd as (pd & Ed & ->).
  apply ratio_value_Some in Vm as (pm & Em & ->).
  apply ratio_value_Some in Vs as (ps & Es & ->).
  rewrite Ed in Dd. rewrite Em in Dm. rewrite Es in Ds.
  unfold dms_degrees.
  repeat apply add_sign; apply of_Q_Qred_sign; cbn; try assumption; lia.
Qed.

End RatioFacts.

(** ** The extractors *)

Section Extractors.

(** One step of the evaluation of the Python primitives. *)
Ltac run_py :=
  cbn [rbind try_except list_item nth_error get_values values_item
       values_split float_of_item item_div list_ascii_of_string
       is_AttributeError is_KeyError is_IndexError].

Lemma list_item_split_0 (sep : ascii) (s : string) :
  list_item (split sep s) 0 = Ok (hd "" (split sep s)).
Proof.
  pose proof (split_not_nil sep s) as H.
  now destruct (split sep s).
Qed.

Lemma get_exif_date_str (s : string) :
  get_exif_date (IfdTag (VStr s)) =
  Ok (Some (replace ":" "-" (hd "" (split " " s)))).
Proof.
  unfold get_exif_date. cbn [get_values rbind values_split].
  now rewrite list_item_split_0.
Qed.

Lemma get_exif_date_not_str (t : tag_obj) :
  ~ string_like t -> get_exif_date t = Ok None.
Proof.
  intros H. destruct t as [[s|l]|b]; try reflexivity.
  exfalso. apply H. now exists s.
Qed.

Lemma get_exif_date_total (t : tag_obj) : exists r, get_exif_date t = Ok r.
Proof.
  destruct t as [[s|l]|b]; [rewrite get_exif_date_str | |]; now eexists.
Qed.

Lemma dict_contains_item (tags : gmap string tag_obj) (key : string) :
  match tags !! key with
  | Some t => dict_contains tags key = true /\ dict_item tags key = Ok t
  | None => dict_contains tags key = false /\ dict_item tags key = Raise KeyError
  end.
Proof. unfold dict_contains, dict_item. now destruct (tags !! key). Qed.

(** The date of a mapping is the date of the chosen field. *)
Lemma image_taken_date_of_chosen (tags : gmap string tag_obj) :
  image_taken_date_of tags =
  match chosen_date_tag tags with
  | Some t => get_exif_date t
  | None => Ok None
  end.
Proof.
  unfold image_taken_date_of, chosen_date_tag.
  pose proof (dict_contains_item tags "EXIF DateTimeOriginal") as H1.
  pose proof (dict_contains_item tags "EXIF DateTimeDigitized") as H2.
  pose proof (dict_contains_item tags "EXIF SceneCaptureType") as H3.
  destruct (tags !! "EXIF DateTimeOriginal"); destruct H1 as [E1 I1];
    rewrite E1, ?I1; [reflexivity |].
  destruct (tags !! "EXIF DateTimeDigitized"); destruct H2 as [E2 I2];
    rewrite E2, ?I2; [reflexivity |].
  destruct (tags !! "EXIF SceneCaptureType"); destruct H3 as [E3 I3];
    rewrite E3, ?I3; reflexivity.
Qed.

Lemma image_taken_date_of_total (tags : gmap string tag_obj) :
  exists d, image_taken_date_of tags = Ok d.
Proof.
  rewrite image_taken_date_of_chosen.
  destruct (chosen_date_tag tags); [apply get_exif_date_total | now eexists].
Qed.

(** What [get_get_gps_coords] makes of a tag that holds a list of numbers:
    the numbers are taken in turn, a missing one raises [IndexError] and a
    denominator of zero raises [ZeroDivisionError]; the reference is read
    after the three numbers. *)
Lemma get_get_gps_coords_list (l : list ratio) (gps_ref : tag_obj) :
  get_get_gps_coords (IfdTag (VList l)) gps_ref =
  match l with
  | d :: m :: s :: _ =>
      match ratio_value d, ratio_value m, ratio_value s with
      | Some qd, Some qm, Some qs =>
          match gps_ref with
          | IfdTag r =>
              Ok (Some (if in_S_W r then neg (dms_degrees qd qm qs)
                        else dms_degrees qd qm qs))
          | Bytes _ => Ok None
          end
      | _, _, _ => Raise ZeroDivisionError
      end
  | [d; m] =>
      match ratio_value d, ratio_value m with
      | Some _, Some _ => Raise IndexError
      | _, _ => Raise ZeroDivisionError
      end
  | [d] =>
      match ratio_value d with
      | Some _ => Raise IndexError
      | None => Raise ZeroDivisionError
      end
  | [] => Raise IndexError
  end.
Proof.
  unfold get_get_gps_coords, ratio_value.
  destruct l as [|[nd [|pd]] [|[nm [|pm]] [|[ns [|ps]] more]]];
    run_py; cbn [numerator denominator N.mul]; run_py; try reflexivity.
  unfold dms_degrees. rewrite <- !Qred_div_literal.
  destruct gps_ref as [r|b]; reflexivity.
Qed.

(** The coordinate of a list of at least three numbers whose denominators
    are not zero, and a reference with a value. *)
Lemma get_get_gps_coords_dms (d m s : ratio) (more : list ratio)
    (r : values_t) (qd qm qs : Q) :
  ratio_value d = Some qd -> ratio_value m = Some qm ->
  ratio_value s = Some qs ->
  get_get_gps_coords (IfdTag (VList (d :: m :: s :: more))) (IfdTag r) =
  Ok (Some (if in_S_W r then neg (dms_degrees qd qm qs)
            else dms_degrees qd qm qs)).
Proof. intros Hd Hm Hs. now rewrite get_get_gps_coords_list, Hd, Hm, Hs. Qed.

Lemma get_get_gps_coords_no_values (b : string) (gps_ref : tag_obj) :
  get_get_gps_coords (Bytes b) gps_ref = Ok None.
Proof. reflexivity. Qed.

Lemma get_get_gps_coords_ref_no_values (d m s : ratio) (more : list ratio)
    (b : string) (qd qm qs : Q) :
  ratio_value d = Some qd -> ratio_value m = Some qm ->
  ratio_value s = Some qs ->
  get_get_gps_coords (IfdTag (VList (d :: m :: s :: more))) (Bytes b) = Ok None.
Proof. intros Hd Hm Hs. now rewrite get_get_gps_coords_list, Hd, Hm, Hs. Qed.

(** The coordinates are taken only when the four tags are there. *)
Lemma gps_coords_of_missing (tags : gmap string tag_obj) :
  ~ has_gps_tags tags ->
  gps_coords_of tags = Raise KeyError \/
  exists lat_tag lat_ref e,
    tags !! "GPS GPSLatitude" = Some lat_tag /\
    tags !! "GPS GPSLatitudeRef" = Some lat_ref /\
    get_get_gps_coords lat_tag lat_ref = Raise e /\
    gps_coords_of tags = Raise e.
Proof.
  intros H. unfold gps_coords_of, dict_item.
  destruct (tags !! "GPS GPSLatitude") as [lat_tag|] eqn:E1; [|now left].
  destruct (tags !! "GPS GPSLatitudeRef") as [lat_ref|] eqn:E2; [|now left].
  cbn [rbind].
  destruct (get_get_gps_coords lat_tag lat_ref) as [latitude|e] eqn:E.
  - left. cbn [rbind].
    destruct (tags !! "GPS GPSLongitude") as [lon_tag|] eqn:E3; [|reflexivity].
    destruct (tags !! "GPS GPSLongitudeRef") as [lon_ref|] eqn:E4; [|reflexivity].
    exfalso. apply H. unfold has_gps_tags. rewrite E1, E2, E3, E4. eauto.
  - right. exists lat_tag, lat_ref, e. now cbn [rbind].
Qed.

Lemma gps_coords_of_Ok (tags : gmap string tag_obj)
    (latitude longitude : option float) :
  gps_coords_of tags = Ok (latitude, longitude) ->
  exists lat_tag lat_ref lon_tag lon_ref,
    tags !! "GPS GPSLatitude" = Some lat_tag /\
    tags !! "GPS GPSLatitudeRef" = Some lat_ref /\
    tags !! "GPS GPSLongitude" = Some lon_tag /\
    tags !! "GPS GPSLongitudeRef" = Some lon_ref /\
    get_get_gps_coords lat_tag lat_ref = Ok latitude /\
    get_get_gps_coords lon_tag lon_ref = Ok longitude.
Proof.
  unfold gps_coords_of, dict_item.
  destruct (tags !! "GPS GPSLatitude") as [lat_tag|]; [|discriminate].
  destruct (tags !! "GPS GPSLatitudeRef") as [lat_ref|]; [|discriminate].
  cbn [rbind].
  destruct (get_get_gps_coords lat_tag lat_ref) as [la|e] eqn:Ela; [|discriminate].
  cbn [rbind].
  destruct (tags !! "GPS GPSLongitude") as [lon_tag|]; [|discriminate].
  destruct (tags !! "GPS GPSLongitudeRef") as [lon_ref|]; [|discriminate].
  cbn [rbind].
  destruct (get_get_gps_coords lon_tag lon_ref) as [lo|e] eqn:Elo; [|discriminate].
  cbn [rbind]. intros [= <- <-].
  exists lat_tag, lat_ref, lon_tag, lon_ref. repeat split; assumption.
Qed.

(** The decoder lets no [KeyError] out: a [KeyError] of the [try] block of
    [parse_exif_data] comes from a missing tag. *)
Lemma get_get_gps_coords_no_KeyError (gps_tag gps_ref : tag_obj) :
  get_get_gps_coords gps_tag gps_ref <> Raise KeyError.
Proof.
  destruct gps_tag as [[s|l]|b].
  - unfold get_get_gps_coords.
    destruct s as [|c [|c' s']]; run_py; try discriminate;
      destruct (digit_value c); run_py; discriminate.
  - rewrite get_get_gps_coords_list.
    destruct l as [|d [|m [|s more]]]; try discriminate;
      repeat match goal with
             | |- context [ratio_value ?x] => destruct (ratio_value x)
             end; try discriminate.
    destruct gps_ref; discriminate.
  - now rewrite get_get_gps_coords_no_values.
Qed.

(** A GPS tag whose value is a string is never decoded. *)
Lemma get_get_gps_coords_str (s : string) (gps_ref : tag_obj) :
  get_get_gps_coords (IfdTag (VStr s)) gps_ref = Raise IndexError \/
  get_get_gps_coords (IfdTag (VStr s)) gps_ref = Raise ValueError \/
  get_get_gps_coords (IfdTag (VStr s)) gps_ref = Raise TypeError.
Proof.
  unfold get_get_gps_coords.
  destruct s as [|c [|c' s']]; run_py; auto;
    destruct (digit_value c); run_py; auto.
Qed.

(** Of the value of the reference, the decoder reads only whether it is
    ['S'] or ['W']. *)
Lemma get_get_gps_coords_same_hemisphere (gps_tag : tag_obj)
    (r1 r2 : values_t) :
  in_S_W r1 = in_S_W r2 ->
  get_get_gps_coords gps_tag (IfdTag r1) =
  get_get_gps_coords gps_tag (IfdTag r2).
Proof.
  intros H. destruct gps_tag as [[s|l]|b].
  - unfold get_get_gps_coords.
    destruct s as [|c [|c' s']]; run_py; try reflexivity;
      destruct (digit_value c); reflexivity.
  - now rewrite !get_get_gps_coords_list, H.
  - reflexivity.
Qed.

(** With a reference that has no [values], no coordinate comes out. *)
Lemma get_get_gps_coords_ref_bytes (gps_tag : tag_obj) (b : string)
    (c : option float) :
  get_get_gps_coords gps_tag (Bytes b) = Ok c -> c = None.
Proof.
  destruct gps_tag as [[s|l]|b'].
  - destruct (get_get_gps_coords_str s (Bytes b)) as [E|[E|E]]; rewrite E;
      discriminate.
  - rewrite get_get_gps_coords_list.
    destruct l as [|d [|m [|s more]]]; try discriminate;
      repeat match goal with
             | |- context [ratio_value ?x] => destruct (ratio_value x)
             end; try discriminate.
    now intros [= <-].
  - rewrite get_get_gps_coords_no_values. now intros [= <-].
Qed.

(** When one of the four GPS tags has no [values], one of the two
    coordinates is [None]. *)
Lemma gps_coords_of_no_values (tags : gmap string tag_obj) (k : string)
    (t : tag_obj) (latitude longitude : option float) :
  In k gps_keys -> tags !! k = Some t -> no_values t ->
  gps_coords_of tags = Ok (latitude, longitude) ->
  latitude = None \/ longitude = None.
Proof.
  intros Hk Ht [b ->] H.
  destruct (gps_coords_of_Ok tags _ _ H)
    as (lat_tag & lat_ref & lon_tag & lon_ref & T1 & T2 & T3 & T4 & D1 & D2).
  destruct Hk as [<-|[<-|[<-|[<-|[]]]]].
  - rewrite T1 in Ht. injection Ht as ->.
    rewrite get_get_gps_coords_no_values in D1. left. congruence.
  - rewrite T2 in Ht. injection Ht as ->.
    left. exact (get_get_gps_coords_ref_bytes _ _ _ D1).
  - rewrite T3 in Ht. injection Ht as ->.
    rewrite get_get_gps_coords_no_values in D2. right. congruence.
  - rewrite T4 in Ht. injection Ht as ->.
    right. exact (get_get_gps_coords_ref_bytes _ _ _ D2).
Qed.

(** Writing ['N'] for the value of a reference that is neither ['S'] nor
    ['W'] changes neither the date nor the coordinates. *)
Lemma image_taken_date_of_insert_gps (tags : gmap string tag_obj)
    (k : string) (t : tag_obj) :
  In k gps_keys ->
  image_taken_date_of (<[k := t]> tags) = image_taken_date_of tags.
Proof.
  intros Hk. unfold image_taken_date_of, dict_contains, dict_item.
  destruct Hk as [<-|[<-|[<-|[<-|[]]]]];
    now rewrite !lookup_insert_ne by discriminate.
Qed.

Lemma gps_coords_of_insert_ref (tags : gmap string tag_obj) (k : string)
    (r : values_t) :
  k = "GPS GPSLatitudeRef" \/ k = "GPS GPSLongitudeRef" ->
  tags !! k = Some (IfdTag r) -> in_S_W r = false ->
  gps_coords_of (<[k := IfdTag (VStr "N")]> tags) = gps_coords_of tags.
Proof.
  intros Hk Ht Hr. unfold gps_coords_of, dict_item.
  destruct Hk as [-> | ->].
  - rewrite lookup_insert_eq, !lookup_insert_ne by discriminate. rewrite Ht.
    destruct (tags !! "GPS GPSLatitude") as [lat_tag|]; [|reflexivity].
    cbn [rbind].
    now rewrite (get_get_gps_coords_same_hemisphere lat_tag r (VStr "N")).
  - rewrite lookup_insert_eq, !lookup_insert_ne by discriminate. rewrite Ht.
    destruct (tags !! "GPS GPSLatitude") as [lat_tag|]; [|reflexivity].
    destruct (tags !! "GPS GPSLatitudeRef") as [lat_ref|]; [|reflexivity].
    cbn [rbind].
    destruct (get_get_gps_coords lat_tag lat_ref); [|reflexivity].
    cbn [rbind].
    destruct (tags !! "GPS GPSLongitude") as [lon_tag|]; [|reflexivity].
    cbn [rbind].
    now rewrite (get_get_gps_coords_same_hemisphere lon_tag r (VStr "N")).
Qed.

End Extractors.

(** ** The script *)

Section ScriptFacts.

Variable env : Env.

(** The geocoder adapter, by the answer of the service. *)
Lemma get_address_cases (lat lon : float) :
  get_address env lat lon =
  (match reverse env lat lon with
   | Ok (Some a) => Ok (hd "" (split "," a))
   | Ok None => Raise AttributeError
   | Raise e => Raise e
   end, [EvReverse lat lon]).
Proof.
  unfold get_address, bind, call, lift. cbn [fst snd].
  destruct (reverse env lat lon) as [[a|]|e]; cbn [fst snd app]; try reflexivity.
  cbn [location_address rbind]. now rewrite list_item_split_0.
Qed.

(** [parse_exif_data], by the outcome of the [try] block and the answer of
    the geocoder. *)
Lemma parse_exif_data_cases (tags : gmap string tag_obj) :
  exists d, image_taken_date_of tags = Ok d /\
  parse_exif_data env tags =
  match gps_coords_of tags with
  | Raise e => if is_KeyError e then (Ok (mkParsedExif d None), [])
               else (Raise e, [])
  | Ok (Some lat, Some lon) =>
      if (truthy lat && truthy lon)%bool then
        (match reverse env lat lon with
         | Ok (Some a) => Ok (mkParsedExif d (Some (hd "" (split "," a))))
         | Ok None => Raise AttributeError
         | Raise e => Raise e
         end, [EvReverse lat lon])
      else (Ok (mkParsedExif d None), [])
  | Ok _ => (Ok (mkParsedExif d None), [])
  end.
Proof.
  destruct (image_taken_date_of_total tags) as [d Hd]. exists d.
  split; [assumption |].
  unfold parse_exif_data, try_except_else, bind, lift, ret. rewrite Hd.
  cbn [fst snd app].
  destruct (gps_coords_of tags) as [[[lat|] [lon|]]|e]; cbn [fst snd app];
    try reflexivity.
  - destruct (truthy lat && truthy lon)%bool; [|reflexivity].
    rewrite get_address_cases. cbn [fst snd app].
    now destruct (reverse env lat lon) as [[a|]|e].
  - now destruct (is_KeyError e).
Qed.

(** [parse_exif_data] calls nothing but the geocoder. *)
Lemma parse_exif_data_events (tags : gmap string tag_obj) :
  snd (parse_exif_data env tags) = [] \/
  exists lat lon, snd (parse_exif_data env tags) = [EvReverse lat lon].
Proof.
  destruct (parse_exif_data_cases tags) as (d & _ & ->).
  destruct (gps_coords_of tags) as [[[lat|] [lon|]]|e]; cbn [snd]; auto.
  - destruct (truthy lat && truthy lon)%bool; cbn [snd]; eauto.
  - destruct (is_KeyError e); auto.
Qed.

(** [rename_photo], by the truth values of the date and of the address. *)
Lemma rename_photo_cases (wdir old_name : string) (p : ParsedExif) :
  rename_photo env wdir old_name p =
  match when_true (date p) with
  | None => (Ok tt, [])
  | Some d =>
      let new_name :=
        match when_true (address p) with
        | Some a => d +:+ "-" +:+ a +:+ "_" +:+ old_name
        | None => d +:+ "_" +:+ old_name
        end in
      (rename env (path_join wdir old_name) (path_join wdir new_name),
       [EvRename (path_join wdir old_name) (path_join wdir new_name)])
  end.
Proof.
  unfold rename_photo, call, ret.
  destruct (when_true (date p)) as [d|]; [|reflexivity].
  destruct (when_true (address p)) as [a|]; [|reflexivity].
  cbn zeta. now rewrite !append_assoc.
Qed.

Lemma opened_app (t1 t2 : list event) :
  opened (t1 ++ t2) = opened t1 ++ opened t2.
Proof. unfold opened. apply flat_map_app. Qed.

(** One turn of the loop opens its photo and no other file. *)
Lemma opened_process_photo (workdir photo_file : string) :
  opened (snd (process_photo env workdir photo_file)) =
  [path_join workdir photo_file].
Proof.
  unfold process_photo, get_exif_data, bind, call. cbn [fst snd].
  destruct (process_file env _) as [tags|e]; [|reflexivity].
  cbn [fst snd]. rewrite opened_app. cbn [opened flat_map app]. f_equal.
  destruct (Nat.eqb (size tags) 0); [reflexivity |].
  destruct (fst (parse_exif_data env tags)) as [p|e]; cbn [snd].
  - rewrite opened_app, rename_photo_cases.
    destruct (parse_exif_data_events tags) as [->|(lat & lon & ->)];
      destruct (when_true (date p)); reflexivity.
  - now destruct (parse_exif_data_events tags) as [->|(lat & lon & ->)].
Qed.

(** The loop opens the photos in the order of the list, and all of them
    when no turn raises. *)
Lemma opened_for_each (workdir : string) (l : list string) :
  exists done rest,
    l = done ++ rest /\
    opened (snd (for_each l (process_photo env workdir))) =
      map (path_join workdir) done /\
    (fst (for_each l (process_photo env workdir)) = Ok tt -> rest = []) /\
    (forall e, fst (for_each l (process_photo env workdir)) = Raise e ->
               done <> []).
Proof.
  induction l as [|f l (done & rest & Hl & Ho & Hok & Hr)].
  - exists [], []. repeat split; [intros e H; discriminate].
  - cbn [for_each]. unfold bind.
    pose proof (opened_process_photo workdir f) as Hf.
    destruct (fst (process_photo env workdir f)) as [[]|e].
    + exists (f :: done), rest. cbn [fst snd]. rewrite opened_app, Hf, Ho.
      split; [now rewrite Hl |]. repeat split; [assumption | intros; discriminate].
    + exists [f], l. cbn [fst snd]. rewrite Hf.
      repeat split; intros; discriminate.
Qed.

(** The script, when the directory can be listed. *)
Lemma main_cases (file_names : list string) :
  listdir env (get_working_dir env) = Ok file_names ->
  main env =
  match get_photo_files_of file_names with
  | [] => (Ok (SysExit "No photos found"), [EvListdir (get_working_dir env)])
  | photo_files =>
      let run := for_each photo_files (process_photo env (get_working_dir env)) in
      (match fst run with Ok _ => Ok Finished | Raise e => Raise e end,
       EvListdir (get_working_dir env) :: snd run)
  end.
Proof.
  intros H. unfold main, get_photo_files, bind, call, ret. rewrite H.
  cbn [fst snd app].
  destruct (get_photo_files_of file_names) as [|f l]; [reflexivity |].
  cbn zeta. destruct (fst (for_each _ _)); cbn [fst snd]; [|reflexivity].
  now rewrite app_nil_r.
Qed.

(** One turn of the loop, by the outcome of its steps. *)
Lemma process_photo_cases (workdir photo_file : string) :
  process_photo env workdir photo_file =
  match process_file env (path_join workdir photo_file) with
  | Raise e => (Raise e, [EvOpen (path_join workdir photo_file)])
  | Ok tags =>
      if Nat.eqb (size tags) 0 then
        (Ok tt, [EvOpen (path_join workdir photo_file)])
      else
        match parse_exif_data env tags with
        | (Ok parsed, tr) =>
            (fst (rename_photo env workdir photo_file parsed),
             EvOpen (path_join workdir photo_file) ::
             tr ++ snd (rename_photo env workdir photo_file parsed))
        | (Raise e, tr) => (Raise e, EvOpen (path_join workdir photo_file) :: tr)
        end
  end.
Proof.
  unfold process_photo, get_exif_data, bind, call. cbn [fst snd].
  destruct (process_file env _) as [tags|e]; [|reflexivity].
  destruct (Nat.eqb (size tags) 0); [reflexivity |].
  now destruct (parse_exif_data env tags) as [[parsed|e] tr].
Qed.

(** A turn of the loop raises exactly when one of its steps raises:
    reading the tags, parsing them or renaming the photo. *)
Lemma process_photo_raises (workdir photo_file : string) (e : exn) :
  fst (process_photo env workdir photo_file) = Raise e <->
  process_file env (path_join workdir photo_file) = Raise e \/
  exists tags,
    process_file env (path_join workdir photo_file) = Ok tags /\
    size tags <> 0 /\
    (fst (parse_exif_data env tags) = Raise e \/
     exists parsed,
       fst (parse_exif_data env tags) = Ok parsed /\
       fst (rename_photo env workdir photo_file parsed) = Raise e).
Proof.
  rewrite process_photo_cases.
  destruct (process_file env _) as [tags|e0].
  - destruct (Nat.eqb_spec (size tags) 0) as [Z|Z].
    + cbn [fst]. split; [discriminate |].
      intros [H|(tags' & [= <-] & H & _)]; [discriminate | contradiction].
    + destruct (parse_exif_data env tags) as [[parsed|e1] tr] eqn:P; cbn [fst].
      * split.
        -- intros H. right. exists tags.
           split; [reflexivity |]. split; [exact Z |]. right.
           exists parsed. rewrite P. split; [reflexivity | exact H].
        -- intros [H|(tags' & [= <-] & _ & K)]; [discriminate |].
           rewrite P in K. cbn [fst] in K.
           destruct K as [K|(p & [= <-] & K)]; [discriminate | exact K].
      * split.
        -- intros [= <-]. right. exists tags.
           split; [reflexivity |]. split; [exact Z |]. left. now rewrite P.
        -- intros [H|(tags' & [= <-] & _ & K)]; [discriminate |].
           rewrite P in K. cbn [fst] in K.
           destruct K as [K|(p & K & _)]; [now injection K as -> | discriminate].
  - cbn [fst]. split.
    + intros [= <-]. now left.
    + intros [H|(tags & H & _)]; [now injection H as -> | discriminate].
Qed.

(** The loop when no turn raises: every turn is taken, in the order of the
    list. *)
Lemma for_each_all_ok {A} (l : list A) (body : A -> M unit) :
  (forall x, In x l -> fst (body x) = Ok tt) ->
  for_each l body = (Ok tt, flat_map (fun x => snd (body x)) l).
Proof.
  induction l as [|x l IH]; intros H; [reflexivity |].
  cbn [for_each flat_map]. unfold bind.
  rewrite (H x (or_introl eq_refl)), IH by (intros y Hy; apply H; now right).
  reflexivity.
Qed.

(** The loop when a turn raises: the turns before it and that turn are
    taken, and the loop raises what the turn raises. *)
Lemma for_each_first_raise {A} (done : list A) (x : A) (rest : list A)
    (body : A -> M unit) (e : exn) :
  (forall y, In y done -> fst (body y) = Ok tt) ->
  fst (body x) = Raise e ->
  for_each (done ++ x :: rest) body =
    (Raise e, flat_map (fun y => snd (body y)) (done ++ [x])).
Proof.
  induction done as [|y done IH]; intros Hd Hx.
  - cbn [app for_each flat_map]. unfold bind. rewrite Hx.
    now rewrite app_nil_r.
  - cbn [app for_each flat_map]. unfold bind.
    rewrite (Hd y (or_introl eq_refl)).
    rewrite IH by (try (intros z Hz; apply Hd; now right); assumption).
    reflexivity.
Qed.

(** Either no turn raises, or there is a first turn that raises. *)
Lemma for_each_turns {A} (l : list A) (body : A -> M unit) :
  (forall x, In x l -> fst (body x) = Ok tt) \/
  exists done x rest e,
    l = done ++ x :: rest /\
    (forall y, In y done -> fst (body y) = Ok tt) /\
    fst (body x) = Raise e.
Proof.
  induction l as [|x l [IH|(done & y & rest & e & -> & Hd & Hy)]].
  - left. intros x [].
  - destruct (fst (body x)) as [[]|e] eqn:E.
    + left. intros y [<-|Hy]; [exact E | now apply IH].
    + right. exists [], x, l, e. repeat split; [intros y [] | exact E].
  - destruct (fst (body x)) as [[]|e'] eqn:E.
    + right. exists (x :: done), y, rest, e. repeat split; [|exact Hy].
      intros z [<-|Hz]; [exact E | now apply Hd].
    + right. exists [], x, (done ++ y :: rest), e'.
      repeat split; [intros z [] | exact E].
Qed.

(** The photos opened by a run of turns. *)
Lemma opened_turns (workdir : string) (l : list string) :
  opened (flat_map (fun f => snd (process_photo env workdir f)) l) =
  map (path_join workdir) l.
Proof.
  induction l as [|f l IH]; [reflexivity |].
  cbn [flat_map map]. now rewrite opened_app, opened_process_photo, IH.
Qed.

(** Without the latitude tag or its reference, the coordinates are not
    decoded: no call of the geocoder and an address of [None]. *)
Lemma parse_exif_data_no_latitude (tags : gmap string tag_obj) :
  tags !! "GPS GPSLatitude" = None \/ tags !! "GPS GPSLatitudeRef" = None ->
  exists d, parse_exif_data env tags = (Ok (mkParsedExif d None), []).
Proof.
  intros Hm. destruct (parse_exif_data_cases tags) as (d & _ & Hp).
  exists d. rewrite Hp.
  assert (gps_coords_of tags = Raise KeyError) as ->; [|reflexivity].
  unfold gps_coords_of, dict_item.
  destruct Hm as [-> | Hm]; [reflexivity |].
  destruct (tags !! "GPS GPSLatitude"); [|reflexivity]. now rewrite Hm.
Qed.

(** With a GPS tag that has no [values], the geocoder is not called and no
    address comes out. *)
Lemma parse_exif_data_no_values (tags : gmap string tag_obj) (k : string)
    (t : tag_obj) :
  In k gps_keys -> tags !! k = Some t -> no_values t ->
  snd (parse_exif_data env tags) = [] /\
  forall p, fst (parse_exif_data env tags) = Ok p -> address p = None.
Proof.
  intros Hk Ht Hn. destruct (parse_exif_data_cases tags) as (d & _ & ->).
  pose proof (gps_coords_of_no_values tags k t) as K.
  destruct (gps_coords_of tags) as [[[lat|] [lon|]]|e]; cbn [fst snd];
    try (split; [reflexivity | now intros p [= <-]]).
  - destruct (K (Some lat) (Some lon) Hk Ht Hn eq_refl); discriminate.
  - destruct (is_KeyError e); cbn [fst snd];
      (split; [reflexivity |]); [now intros p [= <-] | intros p [=]].
Qed.

(** A reference whose value is neither ['S'] nor ['W'] is read as
    ['N']. *)
Lemma parse_exif_data_odd_ref (tags : gmap string tag_obj) (k : string)
    (r : values_t) :
  k = "GPS GPSLatitudeRef" \/ k = "GPS GPSLongitudeRef" ->
  tags !! k = Some (IfdTag r) -> in_S_W r = false ->
  parse_exif_data env (<[k := IfdTag (VStr "N")]> tags) =
  parse_exif_data env tags.
Proof.
  intros Hk Ht Hr.
  destruct (parse_exif_data_cases tags) as (d & Hd & ->).
  destruct (parse_exif_data_cases (<[k := IfdTag (VStr "N")]> tags))
    as (d' & Hd' & ->).
  rewrite image_taken_date_of_insert_gps in Hd'
    by (unfold gps_keys; destruct Hk as [-> | ->]; cbn; auto).
  rewrite (gps_coords_of_insert_ref tags k r Hk Ht Hr).
  assert (d' = d) as -> by congruence. reflexivity.
Qed.

Lemma opened_listdir (w : string) (t : list event) :
  opened (EvListdir w :: t) = opened t.
Proof. reflexivity. Qed.

End ScriptFacts.

(** ** The claims of the specification *)

(** C1. A file whose parsed metadata has no date ([date == None]) is never
    renamed: [rename_photo] returns without calling the file system, and the
    turn of the loop for a photo whose tags give no date makes no rename. *)
Theorem no_date_no_rename (env : Env) (wdir old_name : string)
    (addr : option string) :
  rename_photo env wdir old_name (mkParsedExif None addr) = (Ok tt, []) /\
  (forall tags,
     process_file env (path_join wdir old_name) = Ok tags ->
     image_taken_date_of tags = Ok None ->
     List.filter is_rename (snd (process_photo env wdir old_name)) = []) /\
  (forall tags, chosen_date_tag tags = None ->
                image_taken_date_of tags = Ok None).
Proof.
  split; [reflexivity |]. split.
  - intros tags Hp Hd.
    unfold process_photo, get_exif_data, bind, call. rewrite Hp.
    cbn [fst snd].
    destruct (Nat.eqb (size tags) 0); [reflexivity |].
    destruct (parse_exif_data_cases env tags) as (d & Hd' & Hparse).
    rewrite Hd in Hd'. injection Hd' as <-.
    assert (forall o, rename_photo env wdir old_name (mkParsedExif None o) =
                      (Ok tt, [])) as Hr by reflexivity.
    rewrite Hparse.
    destruct (gps_coords_of tags) as [[[lat|] [lon|]]|e]; cbn [fst snd];
      rewrite ?Hr; try reflexivity.
    + destruct (truthy lat && truthy lon)%bool; cbn [fst snd];
        rewrite ?Hr; try reflexivity.
      destruct (reverse env lat lon) as [[a|]|e]; rewrite ?Hr; reflexivity.
    + destruct (is_KeyError e); cbn [fst snd]; rewrite ?Hr; reflexivity.
  - intros tags H. now rewrite image_taken_date_of_chosen, H.
Qed.

(** C2, as the code has it. For a date that is a non-empty string, the new
    name is the date, an underscore and the original name when the address
    is [None] or the empty string, and the date, a dash, the address, an
    underscore and the original name when the address is a non-empty string;
    this is the name of the specification whenever the address is not the
    empty string. *)
Theorem rename_photo_new_name (env : Env) (wdir old_name d : string)
    (Hd : d <> "") :
  rename_photo env wdir old_name (mkParsedExif (Some d) None) =
    renames_to env wdir old_name (d +:+ "_" +:+ old_name) /\
  rename_photo env wdir old_name (mkParsedExif (Some d) (Some "")) =
    renames_to env wdir old_name (d +:+ "_" +:+ old_name) /\
  (forall a, a <> "" ->
     rename_photo env wdir old_name (mkParsedExif (Some d) (Some a)) =
       renames_to env wdir old_name (d +:+ "-" +:+ a +:+ "_" +:+ old_name)) /\
  (forall addr, addr <> Some "" ->
     exists new_name,
       spec_new_name (mkParsedExif (Some d) addr) old_name = Some new_name /\
       rename_photo env wdir old_name (mkParsedExif (Some d) addr) =
         renames_to env wdir old_name new_name).
Proof.
  assert (when_true (Some d) = Some d) as Wd.
  { unfold when_true. destruct (String.eqb_spec d ""); [contradiction | reflexivity]. }
  assert (forall a, a <> "" -> when_true (Some a) = Some a) as Wa.
  { intros a Ha. unfold when_true.
    destruct (String.eqb_spec a ""); [contradiction | reflexivity]. }
  assert (forall a, a <> "" ->
            rename_photo env wdir old_name (mkParsedExif (Some d) (Some a)) =
            renames_to env wdir old_name (d +:+ "-" +:+ a +:+ "_" +:+ old_name)) as K.
  { intros a Ha. rewrite rename_photo_cases. cbn [date address].
    now rewrite Wd, (Wa a Ha). }
  assert (rename_photo env wdir old_name (mkParsedExif (Some d) None) =
          renames_to env wdir old_name (d +:+ "_" +:+ old_name)) as N.
  { rewrite rename_photo_cases. cbn [date address]. now rewrite Wd. }
  split; [exact N |]. split; [|split; [exact K |]].
  - rewrite rename_photo_cases. cbn [date address]. now rewrite Wd.
  - intros [a|] Ha.
    + exists (d +:+ "-" +:+ a +:+ "_" +:+ old_name). split; [reflexivity |].
      apply K. intros ->. now apply Ha.
    + exists (d +:+ "_" +:+ old_name). now split.
Qed.

(** The two names of the specification's examples, from C2. *)
Lemma rename_photo_new_name_witness :
  "2023-07-04" <> "" /\
  rename_photo Sample.env_ok "/photos" "img001.jpg"
    (mkParsedExif (Some "2023-07-04") None) =
    (Ok tt, [EvRename "/photos/img001.jpg" "/photos/2023-07-04_img001.jpg"]) /\
  rename_photo Sample.env_ok "/photos" "img001.jpg"
    (mkParsedExif (Some "2023-07-04") (Some "Springfield")) =
    (Ok tt, [EvRename "/photos/img001.jpg"
               "/photos/2023-07-04-Springfield_img001.jpg"]).
Proof.
  assert ("2023-07-04" <> "") as H by discriminate.
  split; [exact H |].
  destruct (rename_photo_new_name Sample.env_ok "/photos" "img001.jpg"
              "2023-07-04" H) as (H1 & _ & H3 & _).
  split; [exact H1 |]. apply (H3 "Springfield"). discriminate.
Defined.

(** C2 as the specification words it fails on a date that is the empty
    string: the specification composes a name and the code renames
    nothing. *)
Lemma rename_photo_empty_date_counterexample :
  spec_new_name (mkParsedExif (Some "") None) "img001.jpg" = Some "_img001.jpg" /\
  rename_photo Sample.env_ok "/photos" "img001.jpg" (mkParsedExif (Some "") None) =
    (Ok tt, []).
Proof. split; reflexivity. Qed.

(** The date of the parsed metadata is the date of the extractor. *)
Lemma parse_exif_data_date (env : Env) (tags : gmap string tag_obj)
    (p : ParsedExif) (tr : list event) :
  parse_exif_data env tags = (Ok p, tr) ->
  image_taken_date_of tags = Ok (date p).
Proof.
  destruct (parse_exif_data_cases env tags) as (d & Hd & ->). rewrite Hd.
  destruct (gps_coords_of tags) as [[[lat|] [lon|]]|e];
    try (intros [= <- _]; reflexivity).
  - destruct (truthy lat && truthy lon)%bool;
      [|intros [= <- _]; reflexivity].
    destruct (reverse env lat lon) as [[a|]|e]; intros [= <- _]; reflexivity.
  - destruct (is_KeyError e); intros [= <- _]; reflexivity.
Qed.

(** C3. The date extractor reads the original capture field, else the
    digitized field, else the scene capture type field, else gives [None].
    When the value of the field read is a string, the date is the part of it
    before the first space with every colon replaced by a dash; when it is
    not, the date is [None] and no error comes out. *)
Theorem date_extractor_policy (tags : gmap string tag_obj) :
  match chosen_date_tag tags with
  | None => image_taken_date_of tags = Ok None
  | Some t =>
      (forall s, t = IfdTag (VStr s) ->
         exists first r,
           before_first " " s first /\ replaced ":" "-" first r /\
           r = replace ":" "-" first /\
           image_taken_date_of tags = Ok (Some r)) /\
      (~ string_like t -> image_taken_date_of tags = Ok None)
  end /\
  (exists r, image_taken_date_of tags = Ok r /\
             forall env, match fst (parse_exif_data env tags) with
                         | Ok p => date p = r
                         | Raise _ => True
                         end).
Proof.
  split.
  - rewrite image_taken_date_of_chosen.
    destruct (chosen_date_tag tags) as [t|]; [|reflexivity]. split.
    + intros s ->. exists (hd "" (split " " s)), (replace ":" "-" (hd "" (split " " s))).
      repeat split; try apply split_hd; try apply replace_spec.
      apply get_exif_date_str.
    + apply get_exif_date_not_str.
  - destruct (image_taken_date_of_total tags) as [r Hr]. exists r.
    split; [assumption |]. intros env.
    destruct (parse_exif_data env tags) as [[p|e] tr] eqn:E; cbn [fst];
      [|exact I].
    apply parse_exif_data_date in E. congruence.
Qed.

(** C10. When the original capture field is present and its value is not a
    string, the date is [None], whatever the lower fields hold: the field is
    chosen by the presence of its key alone, and the date is what
    [get_exif_date] makes of the field chosen. *)
Theorem unparsable_original_blocks_fallback (tags : gmap string tag_obj)
    (t : tag_obj) :
  tags !! "EXIF DateTimeOriginal" = Some t ->
  ~ string_like t ->
  image_taken_date_of tags = Ok None /\
  image_taken_date_of tags = get_exif_date t /\
  forall env p tr, parse_exif_data env tags = (Ok p, tr) -> date p = None.
Proof.
  intros Ht Hs.
  assert (image_taken_date_of tags = get_exif_date t) as E.
  { rewrite image_taken_date_of_chosen. unfold chosen_date_tag. now rewrite Ht. }
  assert (image_taken_date_of tags = Ok None) as N.
  { rewrite E. now apply get_exif_date_not_str. }
  repeat split; try assumption.
  intros env p tr Hp. apply parse_exif_data_date in Hp. congruence.
Qed.

(** A mapping whose original date is a list of numbers and whose digitized
    date is a good date string: the date is [None]. *)
Lemma unparsable_original_blocks_fallback_witness :
  Sample.tags_bad_original !! "EXIF DateTimeDigitized" = Some Sample.date_time /\
  get_exif_date Sample.date_time = Ok (Some "2023-07-04") /\
  image_taken_date_of Sample.tags_bad_original = Ok None.
Proof.
  split; [reflexivity |]. split; [reflexivity |].
  apply (unparsable_original_blocks_fallback Sample.tags_bad_original
           Sample.scene_type).
  - reflexivity.
  - intros [s H]. discriminate H.
Defined.

Lemma in_S_W_spec (r : values_t) :
  in_S_W r = true <-> r = VStr "S" \/ r = VStr "W".
Proof.
  destruct r as [s|l]; cbn [in_S_W].
  - rewrite orb_true_iff, !String.eqb_eq. split.
    + intros [->| ->]; auto.
    + intros [[= ->]|[= ->]]; auto.
  - split; [discriminate | intros [H|H]; discriminate H].
Qed.

(** C4, as the code has it. For a tag of at least three numbers whose
    first three denominators are not zero and a reference tag with a value,
    the coordinate is the float [deg + min/60 + sec/3600], negated exactly
    when the reference is ['S'] or ['W']; for three EXIF rationals
    (unsigned, so non-negative) and the reference ['N'] or ['E'] it is at
    least zero.  When the tag is an object without [values], or the
    reference is one while the three numbers are good, the result is
    [None]; when the latitude tag or its reference is missing from the
    mapping, the [try] block of [parse_exif_data] ends with [KeyError] and
    the coordinates are taken as unavailable.  The other malformed tags
    raise: a number that is missing raises [IndexError], one of the three
    numbers with a denominator of zero raises [ZeroDivisionError], and a
    value that is a string raises [IndexError], [ValueError] or
    [TypeError]. *)
Theorem gps_coords_decoding (d m s : ratio) (more : list ratio) (r : values_t)
    (b : string) (gps_ref : tag_obj) :
  (forall qd qm qs,
     ratio_value d = Some qd -> ratio_value m = Some qm ->
     ratio_value s = Some qs ->
     get_get_gps_coords (IfdTag (VList (d :: m :: s :: more))) (IfdTag r) =
       Ok (Some (if in_S_W r then neg (dms_degrees qd qm qs)
                 else dms_degrees qd qm qs)) /\
     get_get_gps_coords (IfdTag (VList (d :: m :: s :: more))) (Bytes b) =
       Ok None /\
     (exif_rational d -> exif_rational m -> exif_rational s ->
      r = VStr "N" \/ r = VStr "E" ->
      get_get_gps_coords (IfdTag (VList (d :: m :: s :: more))) (IfdTag r) =
        Ok (Some (dms_degrees qd qm qs)) /\
      nonneg (dms_degrees qd qm qs) = true)) /\
  (in_S_W r = true <-> r = VStr "S" \/ r = VStr "W") /\
  get_get_gps_coords (Bytes b) gps_ref = Ok None /\
  (ratio_value d = None \/ ratio_value m = None \/ ratio_value s = None ->
   get_get_gps_coords (IfdTag (VList (d :: m :: s :: more))) gps_ref =
     Raise ZeroDivisionError) /\
  (forall l, length l < 3 ->
     get_get_gps_coords (IfdTag (VList l)) gps_ref = Raise IndexError \/
     get_get_gps_coords (IfdTag (VList l)) gps_ref = Raise ZeroDivisionError) /\
  (forall v,
     get_get_gps_coords (IfdTag (VStr v)) gps_ref = Raise IndexError \/
     get_get_gps_coords (IfdTag (VStr v)) gps_ref = Raise ValueError \/
     get_get_gps_coords (IfdTag (VStr v)) gps_ref = Raise TypeError) /\
  (forall env tags,
     tags !! "GPS GPSLatitude" = None \/ tags !! "GPS GPSLatitudeRef" = None ->
     gps_coords_of tags = Raise KeyError /\
     exists date, parse_exif_data env tags = (Ok (mkParsedExif date None), [])).
Proof.
  split; [|split; [apply in_S_W_spec |split; [reflexivity |split; [|split;
    [|split; [intros v; apply get_get_gps_coords_str |]]]]]].
  - intros qd qm qs Hd Hm Hs.
    split; [now apply get_get_gps_coords_dms |].
    split; [now apply (get_get_gps_coords_ref_no_values _ _ _ _ _ qd qm qs) |].
    intros Ed Em Es Hr. split.
    + rewrite (get_get_gps_coords_dms _ _ _ _ _ qd qm qs) by assumption.
      now destruct Hr as [-> | ->].
    + apply sign_nonneg. now apply (dms_degrees_sign d m s).
  - intros H. rewrite get_get_gps_coords_list.
    destruct (ratio_value d); [|reflexivity].
    destruct (ratio_value m); [|reflexivity].
    destruct (ratio_value s); [|reflexivity].
    destruct H as [H|[H|H]]; discriminate.
  - intros l Hl. rewrite get_get_gps_coords_list.
    destruct l as [|x [|y [|z l]]]; cbn [length] in Hl; try lia; auto.
    + destruct (ratio_value x); auto.
    + destruct (ratio_value x), (ratio_value y); auto.
  - intros env tags H. split; [|now apply parse_exif_data_no_latitude].
    unfold gps_coords_of, dict_item.
    destruct H as [-> | H]; [reflexivity |].
    destruct (tags !! "GPS GPSLatitude"); [|reflexivity]. now rewrite H.
Qed.

(** The latitude 39 deg 46 min 54.12 s north is the float 39.7817, which is
    at least zero. *)
Lemma gps_coords_decoding_witness :
  exif_rational (mkRatio 39 1) /\ exif_rational (mkRatio 46 1) /\
  exif_rational (mkRatio 5412 100) /\
  get_get_gps_coords Sample.lat_dms Sample.north =
    Ok (Some (S754_finite false 5598776540505152 (-47))) /\
  nonneg (S754_finite false 5598776540505152 (-47)) = true.
Proof.
  assert (forall n d, (0 <= n < 2 ^ 32)%Z -> (d < 2 ^ 32)%N ->
                      exif_rational (mkRatio n d)) as R
    by (intros n d; split; assumption).
  assert (exif_rational (mkRatio 39 1)) as H1 by (apply R; lia).
  assert (exif_rational (mkRatio 46 1)) as H2 by (apply R; lia).
  assert (exif_rational (mkRatio 5412 100)) as H3 by (apply R; lia).
  destruct (gps_coords_decoding (mkRatio 39 1) (mkRatio 46 1)
              (mkRatio 5412 100) [] (VStr "N") "" Sample.north) as (H & _).
  destruct (H (39 # 1) (46 # 1) (5412 # 100) eq_refl eq_refl eq_refl)
    as (_ & _ & K).
  destruct (K H1 H2 H3 (or_introl eq_refl)) as [E N].
  split; [exact H1 |]. split; [exact H2 |]. split; [exact H3 |].
  split; [exact E | exact N].
Defined.

(** C4 as the specification words it fails on a malformed tag that has a
    value: a latitude with no component raises [IndexError], and a latitude
    whose seconds have a denominator of zero raises [ZeroDivisionError],
    where the specification says the result is [None]. *)
Lemma gps_coords_malformed_counterexample :
  get_get_gps_coords (IfdTag (VList [])) (IfdTag (VStr "N")) = Raise IndexError /\
  get_get_gps_coords (IfdTag (VList [])) (IfdTag (VStr "N")) <> Ok None /\
  get_get_gps_coords Sample.zero_den_dms Sample.north = Raise ZeroDivisionError.
Proof. split; [reflexivity | split; [discriminate | reflexivity]]. Qed.

(** C9. When both coordinates are decoded and one of them is zero, the
    geocoder is not called and the address is [None]. *)
Theorem zero_coordinate_no_geocoding (env : Env) (tags : gmap string tag_obj)
    (lat lon : float) :
  gps_coords_of tags = Ok (Some lat, Some lon) ->
  is_zero lat = true \/ is_zero lon = true ->
  exists d, parse_exif_data env tags = (Ok (mkParsedExif d None), []).
Proof.
  intros Hc Hz. destruct (parse_exif_data_cases env tags) as (d & _ & ->).
  exists d. rewrite Hc.
  assert ((truthy lat && truthy lon)%bool = false) as ->; [|reflexivity].
  apply andb_false_iff. rewrite !truthy_false_iff. exact Hz.
Qed.

(** A photo taken on the equator, at a longitude that is not zero. *)
Lemma zero_coordinate_no_geocoding_witness :
  exists lon,
    gps_coords_of Sample.tags_equator = Ok (Some (S754_zero false), Some lon) /\
    truthy lon = true /\
    parse_exif_data Sample.env_ok Sample.tags_equator =
      (Ok (mkParsedExif (Some "2023-07-04") None), []).
Proof.
  eexists. split; [vm_compute; reflexivity |]. split; [reflexivity |].
  destruct (zero_coordinate_no_geocoding Sample.env_ok Sample.tags_equator
              (S754_zero false) (S754_finite false 6308557915527578 (-46)))
    as [d Hd].
  - vm_compute. reflexivity.
  - left. reflexivity.
  - rewrite Hd. f_equal. f_equal.
    assert (image_taken_date_of Sample.tags_equator = Ok (date (mkParsedExif d None))) as K
      by exact (parse_exif_data_date _ _ _ _ Hd).
    vm_compute in K. cbn [date]. congruence.
Defined.

Lemma is_KeyError_spec (e : exn) : is_KeyError e = true <-> e = KeyError.
Proof. destruct e; cbn; split; congruence. Qed.

(** C5, as the code has it. The address of the parsed metadata is a string
    only when both coordinates were decoded and the geocoder answered with a
    location, and it is then the first segment of the answer.  When one of
    the four GPS tags is missing from the mapping, or is an object without
    [values], the geocoder is not called, and the address is [None]
    whenever [parse_exif_data] returns; with a missing tag it returns unless
    decoding a latitude that is present raises before the missing key is
    looked up, and it always returns when the latitude tag or its reference
    is the missing one.  A reference whose value is neither ['S'] nor ['W']
    is no obstacle: it is read as ['N'] or ['E'], and the geocoder is called
    as for these. *)
Theorem address_only_from_geocoded_coords (env : Env)
    (tags : gmap string tag_obj) :
  (forall p tr a,
     parse_exif_data env tags = (Ok p, tr) -> address p = Some a ->
     exists lat_tag lat_ref lon_tag lon_ref lat lon loc,
       tags !! "GPS GPSLatitude" = Some lat_tag /\
       tags !! "GPS GPSLatitudeRef" = Some lat_ref /\
       tags !! "GPS GPSLongitude" = Some lon_tag /\
       tags !! "GPS GPSLongitudeRef" = Some lon_ref /\
       get_get_gps_coords lat_tag lat_ref = Ok (Some lat) /\
       get_get_gps_coords lon_tag lon_ref = Ok (Some lon) /\
       reverse env lat lon = Ok (Some loc) /\
       before_first "," loc a /\
       tr = [EvReverse lat lon]) /\
  (~ has_gps_tags tags ->
   snd (parse_exif_data env tags) = [] /\
   (forall p, fst (parse_exif_data env tags) = Ok p -> address p = None) /\
   ((exists d, fst (parse_exif_data env tags) = Ok (mkParsedExif d None)) \/
    (exists lat_tag lat_ref e,
       tags !! "GPS GPSLatitude" = Some lat_tag /\
       tags !! "GPS GPSLatitudeRef" = Some lat_ref /\
       get_get_gps_coords lat_tag lat_ref = Raise e /\
       fst (parse_exif_data env tags) = Raise e))) /\
  (tags !! "GPS GPSLatitude" = None \/ tags !! "GPS GPSLatitudeRef" = None ->
   exists d, parse_exif_data env tags = (Ok (mkParsedExif d None), [])) /\
  (forall k t,
     In k gps_keys -> tags !! k = Some t -> no_values t ->
     snd (parse_exif_data env tags) = [] /\
     forall p, fst (parse_exif_data env tags) = Ok p -> address p = None) /\
  (forall k r,
     k = "GPS GPSLatitudeRef" \/ k = "GPS GPSLongitudeRef" ->
     tags !! k = Some (IfdTag r) -> in_S_W r = false ->
     (forall gps_tag,
        get_get_gps_coords gps_tag (IfdTag r) =
        get_get_gps_coords gps_tag (IfdTag (VStr "N"))) /\
     parse_exif_data env (<[k := IfdTag (VStr "N")]> tags) =
     parse_exif_data env tags).
Proof.
  destruct (parse_exif_data_cases env tags) as (d & _ & Hp).
  split; [|split; [|split; [|split]]].
  - intros p tr a. rewrite Hp.
    destruct (gps_coords_of tags) as [[[lat|] [lon|]]|e] eqn:G;
      try (intros [= <- _] [=]; fail).
    + destruct (truthy lat && truthy lon)%bool;
        [|intros [= <- _] [=]; fail].
      destruct (reverse env lat lon) as [[loc|]|e] eqn:R; intros [= <- <-];
        cbn [address].
      intros [= <-].
      destruct (gps_coords_of_Ok tags _ _ G)
        as (lat_tag & lat_ref & lon_tag & lon_ref & T1 & T2 & T3 & T4 & D1 & D2).
      exists lat_tag, lat_ref, lon_tag, lon_ref, lat, lon, loc.
      repeat (split; [assumption |]). split; [apply split_hd | reflexivity].
    + destruct (is_KeyError e); [intros [= <- _] [=] | intros [=]].
  - intros Hm. destruct (gps_coords_of_missing tags Hm)
      as [E | (lat_tag & lat_ref & e & H1 & H2 & H3 & E)];
      rewrite E in Hp.
    + cbn [is_KeyError] in Hp. rewrite Hp. cbn [fst snd].
      split; [reflexivity |]. split; [now intros p [= <-] |]. left. now exists d.
    + assert (is_KeyError e = false) as K.
      { destruct (is_KeyError e) eqn:K; [|reflexivity].
        apply is_KeyError_spec in K. subst e.
        now apply get_get_gps_coords_no_KeyError in H3. }
      rewrite K in Hp. rewrite Hp. cbn [fst snd].
      split; [reflexivity |]. split; [intros p [=] |].
      right. now exists lat_tag, lat_ref, e.
  - apply parse_exif_data_no_latitude.
  - intros k t. apply parse_exif_data_no_values.
  - intros k r Hk Ht Hr. split.
    + intros gps_tag. now apply get_get_gps_coords_same_hemisphere.
    + exact (parse_exif_data_odd_ref env tags k r Hk Ht Hr).
Qed.

(** A mapping with a latitude and no latitude reference: no call of the
    geocoder, and an address of [None]. *)
Lemma address_only_from_geocoded_coords_witness :
  Sample.tags_no_lat_ref !! "GPS GPSLatitude" = Some Sample.lat_dms /\
  Sample.tags_no_lat_ref !! "GPS GPSLatitudeRef" = None /\
  exists d, parse_exif_data Sample.env_ok Sample.tags_no_lat_ref =
              (Ok (mkParsedExif d None), []).
Proof.
  split; [reflexivity |]. split; [reflexivity |].
  destruct (address_only_from_geocoded_coords Sample.env_ok
              Sample.tags_no_lat_ref) as (_ & _ & H & _).
  apply H. right. reflexivity.
Defined.

(** C5 as the specification words it fails twice.  On a mapping whose
    longitude is missing and whose latitude has no component, decoding the
    latitude raises [IndexError], and no metadata with an address of [None]
    comes out.  On a mapping whose latitude is present with a reference of
    the malformed value [??], the coordinates are decoded, the geocoder is
    called and the address is a string. *)
Lemma missing_longitude_counterexample :
  (Sample.tags_empty_lat !! "GPS GPSLongitude" = None /\
   parse_exif_data Sample.env_ok Sample.tags_empty_lat =
     (Raise IndexError, [])) /\
  (Sample.tags_odd_ref !! "GPS GPSLatitude" = Some Sample.lat_dms /\
   Sample.tags_odd_ref !! "GPS GPSLatitudeRef" = Some (IfdTag (VStr "??")) /\
   parse_exif_data Sample.env_ok Sample.tags_odd_ref =
     (Ok (mkParsedExif (Some "2023-07-04") (Some "Springfield")),
      [EvReverse (S754_finite false 5598776540505152 (-47))
                 (S754_finite true 6308557915527578 (-46))])).
Proof.
  split; [split; vm_compute; reflexivity |].
  split; [vm_compute; reflexivity |]. split; vm_compute; reflexivity.
Qed.

(** C8. For an address string that the geocoder returns, the adapter
    returns the part before the first comma, which is the whole string when
    it has no comma; for ["Springfield, Illinois, USA"] it returns
    ["Springfield"]. *)
Theorem get_address_first_segment (env : Env) (lat lon : float) (a : string) :
  reverse env lat lon = Ok (Some a) ->
  exists r,
    get_address env lat lon = (Ok r, [EvReverse lat lon]) /\
    before_first "," a r /\
    (has_char "," a = false -> r = a) /\
    (a = "Springfield, Illinois, USA" -> r = "Springfield").
Proof.
  intros H. exists (hd "" (split "," a)). rewrite get_address_cases, H.
  split; [reflexivity |]. split; [apply split_hd |]. split.
  - intros Hn. exact (before_first_no_sep _ _ _ Hn (split_hd "," a)).
  - intros ->. reflexivity.
Qed.

Lemma get_address_first_segment_witness :
  reverse Sample.env_ok zero zero = Ok (Some "Springfield, Illinois, USA") /\
  get_address Sample.env_ok zero zero = (Ok "Springfield", [EvReverse zero zero]).
Proof.
  split; [reflexivity |].
  destruct (get_address_first_segment Sample.env_ok zero zero
              "Springfield, Illinois, USA" eq_refl) as (r & Hr & _ & _ & Hs).
  rewrite Hr. now rewrite (Hs eq_refl).
Defined.

(** C6. When the directory can be listed, [get_photo_files] lists it once
    and returns exactly the entries whose name ends, case set aside, with
    [.jpg], [.jpeg] or [.heic], in the order of the listing; [Photo.JPG] is
    such a name, and is returned when it is listed; a listing with no such
    name gives no candidate. *)
Theorem photo_files_by_extension (env : Env) (wdir : string)
    (file_names : list string) :
  listdir env wdir = Ok file_names ->
  exists photo_files,
    get_photo_files env wdir = (Ok photo_files, [EvListdir wdir]) /\
    (forall f, In f photo_files <-> In f file_names /\ candidate_name f) /\
    (exists keep, (forall f, keep f = true <-> candidate_name f) /\
                  photo_files = List.filter keep file_names) /\
    candidate_name "Photo.JPG" /\
    (In "Photo.JPG" file_names -> In "Photo.JPG" photo_files) /\
    (photo_files = [] <-> forall f, In f file_names -> ~ candidate_name f).
Proof.
  intros Hl. exists (get_photo_files_of file_names).
  assert (forall f, In f (get_photo_files_of file_names) <->
                    In f file_names /\ candidate_name f) as H.
  { intros f. unfold get_photo_files_of. rewrite filter_In.
    now rewrite is_candidate_spec. }
  assert (candidate_name "Photo.JPG") as P by now apply is_candidate_spec.
  split; [|split; [exact H |split; [|split; [exact P |split]]]].
  - unfold get_photo_files, bind, call, ret. rewrite Hl. reflexivity.
  - exists (fun f => endswith_any (lower f) [".jpg"; ".jpeg"; ".heic"]).
    split; [apply is_candidate_spec | reflexivity].
  - intros K. apply H. now split.
  - split.
    + intros E f Hf Hp. assert (In f (get_photo_files_of file_names)) as K
        by (apply H; now split).
      rewrite E in K. exact K.
    + intros Hn. destruct (get_photo_files_of file_names) as [|f l] eqn:E;
        [reflexivity |].
      exfalso. destruct (H f) as [K _].
      destruct (K (or_introl eq_refl)) as [K1 K2]. exact (Hn f K1 K2).
Qed.

(** A directory of three entries, two of them photos. *)
Lemma photo_files_by_extension_witness :
  listdir Sample.env_ok "/photos" = Ok ["Photo.JPG"; "notes.txt"; "b.heic"] /\
  exists photo_files,
    get_photo_files Sample.env_ok "/photos" =
      (Ok photo_files, [EvListdir "/photos"]) /\
    In "Photo.JPG" photo_files /\ In "b.heic" photo_files /\
    ~ In "notes.txt" photo_files.
Proof.
  split; [reflexivity |].
  destruct (photo_files_by_extension Sample.env_ok "/photos"
              ["Photo.JPG"; "notes.txt"; "b.heic"] eq_refl)
    as (photo_files & E & H & _ & _ & Hin & _).
  exists photo_files. split; [exact E |]. split; [|split].
  - apply Hin. left. reflexivity.
  - apply H. split; [cbn; auto |]. now apply is_candidate_spec.
  - intros K. apply H in K. destruct K as [_ K].
    apply is_candidate_spec in K. discriminate.
Defined.

(** C7, as the code has it. When the directory can be listed, the script
    ends with the message [No photos found] and a status that is not zero
    if and only if no entry is a candidate.  Otherwise it takes the
    candidates in the order of the listing, one turn of the loop each, until
    a turn raises.  When no turn raises, every candidate is processed and
    the script ends with the status 0, and it ends so only then.  When a
    turn raises, the turns before it and that turn are the ones taken, and
    the script ends there with the error of that turn and the status 1.  A
    turn raises exactly when reading the tags of its photo, parsing them or
    renaming the photo raises. *)
Theorem main_exit_behaviour (env : Env) (file_names : list string) :
  listdir env (get_working_dir env) = Ok file_names ->
  let photo_files := get_photo_files_of file_names in
  let paths := map (path_join (get_working_dir env)) photo_files in
  let turn := process_photo env (get_working_dir env) in
  ((exit_stderr (fst (main env)) = Message "No photos found" /\
    exit_status (fst (main env)) <> 0%Z) <-> photo_files = []) /\
  (photo_files = [] ->
   main env = (Ok (SysExit "No photos found"),
               [EvListdir (get_working_dir env)])) /\
  (photo_files <> [] ->
   (exists rest, paths = opened (snd (main env)) ++ rest) /\
   (fst (main env) = Ok Finished \/ exists e, fst (main env) = Raise e) /\
   (fst (main env) = Ok Finished ->
    exit_status (fst (main env)) = 0%Z /\ opened (snd (main env)) = paths) /\
   (forall e, fst (main env) = Raise e ->
    exit_status (fst (main env)) = 1%Z /\ opened (snd (main env)) <> []) /\
   ((forall f, In f photo_files -> fst (turn f) = Ok tt) ->
    main env = (Ok Finished,
                EvListdir (get_working_dir env) ::
                flat_map (fun f => snd (turn f)) photo_files) /\
    exit_status (fst (main env)) = 0%Z /\
    opened (snd (main env)) = paths) /\
   (forall done f rest e,
      photo_files = done ++ f :: rest ->
      (forall g, In g done -> fst (turn g) = Ok tt) ->
      fst (turn f) = Raise e ->
      main env = (Raise e,
                  EvListdir (get_working_dir env) ::
                  flat_map (fun g => snd (turn g)) (done ++ [f])) /\
      exit_status (fst (main env)) = 1%Z /\
      exit_stderr (fst (main env)) = Traceback e /\
      opened (snd (main env)) =
        map (path_join (get_working_dir env)) (done ++ [f])) /\
   (fst (main env) = Ok Finished <->
    forall f, In f photo_files -> fst (turn f) = Ok tt) /\
   ((exists e, fst (main env) = Raise e) <->
    exists done f rest e,
      photo_files = done ++ f :: rest /\
      (forall g, In g done -> fst (turn g) = Ok tt) /\
      fst (turn f) = Raise e) /\
   (forall f e,
      fst (turn f) = Raise e <->
      process_file env (path_join (get_working_dir env) f) = Raise e \/
      exists tags,
        process_file env (path_join (get_working_dir env) f) = Ok tags /\
        size tags <> 0 /\
        (fst (parse_exif_data env tags) = Raise e \/
         exists parsed,
           fst (parse_exif_data env tags) = Ok parsed /\
           fst (rename_photo env (get_working_dir env) f parsed) = Raise e))).
Proof.
  intros Hl photo_files paths turn.
  pose proof (main_cases env file_names Hl) as Hm.
  fold photo_files in Hm.
  destruct photo_files as [|f l] eqn:E.
  - rewrite Hm. cbn [fst snd exit_stderr exit_status].
    split; [split; [reflexivity | intros _; split; [reflexivity | discriminate]] |].
    split; [reflexivity |]. intros K. now contradiction K.
  - cbn zeta in Hm. fold turn in Hm.
    destruct (opened_for_each env (get_working_dir env) (f :: l))
      as (done & rest & Hd & Ho & Hok & Hr).
    fold turn in Ho, Hok, Hr.
    assert (opened (snd (main env)) = map (path_join (get_working_dir env)) done)
      as Hopen by (rewrite Hm; exact Ho).
    assert (forall r, for_each (f :: l) turn = r ->
              main env = (match fst r with
                          | Ok _ => Ok Finished
                          | Raise e => Raise e
                          end, EvListdir (get_working_dir env) :: snd r))
      as Hrun by (intros r <-; exact Hm).
    assert ((forall g, In g (f :: l) -> fst (turn g) = Ok tt) ->
            main env = (Ok Finished,
                        EvListdir (get_working_dir env) ::
                        flat_map (fun g => snd (turn g)) (f :: l))) as Hall.
    { intros A. now rewrite (Hrun _ (for_each_all_ok _ _ A)). }
    assert (forall done' g rest' e,
              f :: l = done' ++ g :: rest' ->
              (forall h, In h done' -> fst (turn h) = Ok tt) ->
              fst (turn g) = Raise e ->
              main env = (Raise e,
                          EvListdir (get_working_dir env) ::
                          flat_map (fun h => snd (turn h)) (done' ++ [g])))
      as Hfirst.
    { intros done' g rest' e S D G. rewrite S in Hrun.
      now rewrite (Hrun _ (for_each_first_raise done' g rest' _ e D G)). }
    split; [|split; [discriminate |]].
    + split; [|discriminate]. intros [K _]. exfalso. rewrite Hm in K.
      cbn [fst] in K. now destruct (fst (for_each _ _)).
    + intros _.
      split; [|split; [|split; [|split; [|split; [|split; [|split; [|split]]]]]]].
      * exists (map (path_join (get_working_dir env)) rest).
        rewrite Hopen. subst paths. now rewrite Hd, map_app.
      * rewrite Hm. cbn [fst]. destruct (fst (for_each _ _)) as [[]|e]; eauto.
      * intros K. rewrite K. split; [reflexivity |].
        rewrite Hopen. subst paths. rewrite Hd.
        rewrite Hok, app_nil_r; [reflexivity |].
        rewrite Hm in K. cbn [fst] in K.
        destruct (fst (for_each _ _)) as [[]|e]; [reflexivity | discriminate].
      * intros e K. rewrite K. split; [reflexivity |].
        rewrite Hopen. rewrite Hm in K. cbn [fst] in K.
        destruct (fst (for_each _ _)) as [[]|e'] eqn:F; [discriminate |].
        specialize (Hr e' eq_refl). destruct done; [contradiction | discriminate].
      * intros A. rewrite (Hall A). cbn [fst snd exit_status].
        split; [reflexivity |]. split; [reflexivity |].
        rewrite opened_listdir. subst paths turn. apply opened_turns.
      * intros done' g rest' e S D G. rewrite (Hfirst done' g rest' e S D G).
        cbn [fst snd exit_status exit_stderr].
        split; [reflexivity |]. split; [reflexivity |]. split; [reflexivity |].
        rewrite opened_listdir. subst turn. apply opened_turns.
      * split; [|intros A; now rewrite (Hall A)].
        intros K.
        destruct (for_each_turns (f :: l) turn)
          as [A|(done' & g & rest' & e & S & D & G)]; [exact A |].
        rewrite (Hfirst done' g rest' e S D G) in K. discriminate.
      * split.
        -- intros [e K].
           destruct (for_each_turns (f :: l) turn)
             as [A|(done' & g & rest' & e' & S & D & G)].
           ++ rewrite (Hall A) in K. discriminate.
           ++ now exists done', g, rest', e'.
        -- intros (done' & g & rest' & e & S & D & G). exists e.
           now rewrite (Hfirst done' g rest' e S D G).
      * intros g e. subst turn. apply process_photo_raises.
Qed.

(** A directory with two photos among three entries: both are opened, in
    the order of the listing, and the status is 0. *)
Lemma main_exit_behaviour_witness :
  listdir Sample.env_ok (get_working_dir Sample.env_ok) =
    Ok ["Photo.JPG"; "notes.txt"; "b.heic"] /\
  fst (main Sample.env_ok) = Ok Finished /\
  exit_status (fst (main Sample.env_ok)) = 0%Z /\
  opened (snd (main Sample.env_ok)) = ["/photos/Photo.JPG"; "/photos/b.heic"].
Proof.
  split; [reflexivity |]. split; [vm_compute; reflexivity |].
  destruct (main_exit_behaviour Sample.env_ok
              ["Photo.JPG"; "notes.txt"; "b.heic"] eq_refl)
    as (_ & _ & H).
  destruct (H ltac:(vm_compute; discriminate)) as (_ & _ & Hfin & _).
  destruct (Hfin ltac:(vm_compute; reflexivity)) as [Hs Ho].
  split; [exact Hs |]. rewrite Ho. vm_compute. reflexivity.
Defined.

(** C7 as the specification words it fails on a directory whose only
    candidate cannot be read: the list of candidates is not empty, and the
    script ends with the error and the status 1, not the status 0. *)
Lemma unreadable_photo_counterexample :
  get_photo_files_of ["album.jpg"] = ["album.jpg"] /\
  main Sample.env_unreadable =
    (Raise OSError, [EvListdir "/photos"; EvOpen "/photos/album.jpg"]) /\
  exit_status (fst (main Sample.env_unreadable)) = 1%Z /\
  exit_stderr (fst (main Sample.env_unreadable)) = Traceback OSError.
Proof. repeat split; vm_compute; reflexivity. Qed.

(** ** Further properties of the script *)

(** X1. The outcome of [get_get_gps_coords], read off its [try] block: it
    returns a coordinate exactly for a tag of at least three numbers whose
    first three denominators are not zero and a reference with a value; it
    returns [None] exactly when the tag has no [values], or has three such
    numbers while the reference has no [values]; a tag of numbers raises
    [ZeroDivisionError] when one of its first three numbers has a
    denominator of zero, and [IndexError] when it has none and fewer than
    three numbers; a tag whose value is a string raises [IndexError],
    [ValueError] or [TypeError].  No other error comes out. *)
Theorem gps_coords_outcomes (gps_tag gps_ref : tag_obj) :
  match get_get_gps_coords gps_tag gps_ref with
  | Ok (Some c) =>
      exists d m s more r qd qm qs,
        gps_tag = IfdTag (VList (d :: m :: s :: more)) /\ gps_ref = IfdTag r /\
        ratio_value d = Some qd /\ ratio_value m = Some qm /\
        ratio_value s = Some qs /\
        c = (if in_S_W r then neg (dms_degrees qd qm qs)
             else dms_degrees qd qm qs)
  | Ok None =>
      (exists b, gps_tag = Bytes b) \/
      (exists d m s more b,
         gps_tag = IfdTag (VList (d :: m :: s :: more)) /\ gps_ref = Bytes b /\
         existsb zero_den [d; m; s] = false)
  | Raise e =>
      (exists l, gps_tag = IfdTag (VList l) /\
         (existsb zero_den (firstn 3 l) = true /\ e = ZeroDivisionError \/
          existsb zero_den (firstn 3 l) = false /\ length l < 3 /\
          e = IndexError)) \/
      (exists s, gps_tag = IfdTag (VStr s) /\
                 (e = IndexError \/ e = ValueError \/ e = TypeError))
  end.
Proof.
  destruct gps_tag as [[s|l]|b].
  - destruct (get_get_gps_coords_str s gps_ref) as [E|[E|E]]; rewrite E;
      right; exists s; auto.
  - rewrite get_get_gps_coords_list.
    destruct l as [|[nd [|pd]] [|[nm [|pm]] [|[ns [|ps]] more]]];
      cbn [ratio_value numerator denominator];
      try (left; eexists; split; [reflexivity |];
           (left; split; reflexivity) ||
           (right; split; [reflexivity |]; split; [cbn; lia | reflexivity]));
      fail || idtac.
    destruct gps_ref as [r|b].
    + exists (mkRatio nd (Npos pd)), (mkRatio nm (Npos pm)),
        (mkRatio ns (Npos ps)), more, r, (nd # pd), (nm # pm), (ns # ps).
      repeat (split; [reflexivity |]). reflexivity.
    + right. exists (mkRatio nd (Npos pd)), (mkRatio nm (Npos pm)),
        (mkRatio ns (Npos ps)), more, b.
      repeat (split; [reflexivity |]). reflexivity.
  - rewrite get_get_gps_coords_no_values. left. now exists b.
Qed.

Lemma neg_involutive (x : float) : neg (neg x) = x.
Proof. destruct x as [s|s| |s m e]; cbn; now rewrite ?negb_involutive. Qed.

(** X2. The hemisphere only sets the sign: for every tag, decoding with a
    reference that is ['S'] or ['W'] gives the negation of what decoding with
    any other reference value gives, a failure being the same failure. *)
Theorem gps_coords_hemisphere_symmetry (gps_tag : tag_obj) (r1 r2 : values_t) :
  in_S_W r1 = false -> in_S_W r2 = true ->
  get_get_gps_coords gps_tag (IfdTag r2) =
    rmap (option_map neg) (get_get_gps_coords gps_tag (IfdTag r1)) /\
  get_get_gps_coords gps_tag (IfdTag r1) =
    rmap (option_map neg) (get_get_gps_coords gps_tag (IfdTag r2)).
Proof.
  intros H1 H2. destruct gps_tag as [[s|l]|b].
  - assert (forall r, get_get_gps_coords (IfdTag (VStr s)) (IfdTag r) =
                      get_get_gps_coords (IfdTag (VStr s)) (IfdTag r1)) as K.
    { intros r. unfold get_get_gps_coords.
      destruct s as [|c [|c' s']]; cbn [rbind try_except list_item nth_error
        get_values values_item float_of_item item_div list_ascii_of_string
        is_AttributeError]; try reflexivity;
        destruct (digit_value c); reflexivity. }
    rewrite (K r2).
    destruct (get_get_gps_coords_str s (IfdTag r1)) as [E|[E|E]]; rewrite E;
      now split.
  - rewrite !get_get_gps_coords_list.
    destruct l as [|d [|m [|s more]]];
      repeat match goal with
             | |- context [ratio_value ?x] => destruct (ratio_value x)
             end; try (now split).
    rewrite H1, H2. cbn [rmap option_map]. now rewrite neg_involutive.
  - rewrite !get_get_gps_coords_no_values. now split.
Qed.

Lemma gps_coords_hemisphere_symmetry_witness :
  get_get_gps_coords Sample.lat_dms (IfdTag (VStr "S")) =
    Ok (Some (S754_finite true 5598776540505152 (-47))) /\
  get_get_gps_coords Sample.lat_dms (IfdTag (VStr "N")) =
    Ok (Some (S754_finite false 5598776540505152 (-47))).
Proof.
  destruct (gps_coords_hemisphere_symmetry Sample.lat_dms (VStr "N") (VStr "S")
              eq_refl eq_refl) as [H _].
  split; [rewrite H |]; vm_compute; reflexivity.
Defined.

Lemma neg_sign (s : bool) (x : float) : sign_is s x -> sign_is (negb s) (neg x).
Proof. destruct x; cbn; intros H; subst; try reflexivity; contradiction. Qed.

Lemma sign_nonpos (x : float) : sign_is true x -> nonpos x = true.
Proof. destruct x; cbn; intros H; subst; try reflexivity; contradiction. Qed.

(** X3. For three EXIF rationals whose denominators are not zero, the
    decoded coordinate is a number (no NaN) whose sign bit is set exactly
    when the reference is ['S'] or ['W']: it is at most zero for ['S'] and
    ['W'] and at least zero for every other reference value. *)
Theorem gps_coords_sign (d m s : ratio) (more : list ratio) (r : values_t) :
  exif_rational d -> exif_rational m -> exif_rational s ->
  existsb zero_den [d; m; s] = false ->
  exists c,
    get_get_gps_coords (IfdTag (VList (d :: m :: s :: more))) (IfdTag r) =
      Ok (Some c) /\
    sign_is (in_S_W r) c /\
    (if in_S_W r then nonpos c else nonneg c) = true.
Proof.
  intros Hd Hm Hs Hz. cbn [existsb] in Hz.
  apply orb_false_iff in Hz as [Zd Hz].
  apply orb_false_iff in Hz as [Zm Hz].
  apply orb_false_iff in Hz as [Zs _].
  destruct (zero_den_false d Zd) as [qd Qd].
  destruct (zero_den_false m Zm) as [qm Qm].
  destruct (zero_den_false s Zs) as [qs Qs].
  pose proof (dms_degrees_sign d m s qd qm qs Hd Hm Hs Qd Qm Qs) as H.
  rewrite (get_get_gps_coords_dms d m s more r qd qm qs Qd Qm Qs).
  eexists. split; [reflexivity |].
  destruct (in_S_W r).
  - split; [exact (neg_sign false _ H) |].
    apply sign_nonpos. exact (neg_sign false _ H).
  - split; [exact H | now apply sign_nonneg].
Qed.

(** The longitude 89 deg 39 min west is the float -89.65. *)
Lemma gps_coords_sign_witness :
  get_get_gps_coords Sample.lon_dms Sample.west =
    Ok (Some (S754_finite true 6308557915527578 (-46))) /\
  nonpos (S754_finite true 6308557915527578 (-46)) = true.
Proof.
  assert (forall n d, (0 <= n < 2 ^ 32)%Z -> (d < 2 ^ 32)%N ->
                      exif_rational (mkRatio n d)) as R
    by (intros n d; split; assumption).
  destruct (gps_coords_sign (mkRatio 89 1) (mkRatio 39 1) (mkRatio 0 1) []
              (VStr "W")
              ltac:(apply R; lia) ltac:(apply R; lia) ltac:(apply R; lia)
              eq_refl)
    as (c & E & _ & N).
  split; [reflexivity |]. reflexivity.
Defined.

Section DateFacts.

#[local] Arguments String.append : simpl nomatch.

Lemma has_char_app (c : ascii) (a b : string) :
  has_char c (a +:+ b) = (has_char c a || has_char c b)%bool.
Proof.
  induction a as [|x a IH]; simpl; [reflexivity |].
  now rewrite IH, orb_assoc.
Qed.

Lemma has_char_replace_old (old new : ascii) (s : string) :
  old <> new -> has_char old (replace old new s) = false.
Proof.
  intros H. induction s as [|c s IH]; simpl; [reflexivity |]. rewrite IH.
  destruct (Ascii.eqb_spec c old) as [->|Hc].
  - destruct (Ascii.eqb_spec new old); [congruence | reflexivity].
  - destruct (Ascii.eqb_spec c old); [contradiction | reflexivity].
Qed.

Lemma has_char_replace_other (c old new : ascii) (s : string) :
  c <> new -> has_char c s = false -> has_char c (replace old new s) = false.
Proof.
  intros H. induction s as [|x s IH]; simpl; [reflexivity |].
  intros K. apply orb_false_iff in K as [K1 K2]. rewrite (IH K2).
  destruct (Ascii.eqb_spec x old) as [->|Hx].
  - destruct (Ascii.eqb_spec new c); [congruence | reflexivity].
  - now rewrite K1.
Qed.

Lemma replace_length (old new : ascii) (s : string) :
  String.length (replace old new s) = String.length s.
Proof. induction s as [|c s IH]; simpl; [reflexivity | now rewrite IH]. Qed.

Lemma replace_app (old new : ascii) (a b : string) :
  replace old new (a +:+ b) = replace old new a +:+ replace old new b.
Proof. induction a as [|c a IH]; simpl; [reflexivity | now rewrite IH]. Qed.

Lemma replace_absent (old new : ascii) (s : string) :
  has_char old s = false -> replace old new s = s.
Proof.
  induction s as [|c s IH]; simpl; [reflexivity |].
  intros K. apply orb_false_iff in K as [K1 K2]. now rewrite K1, IH.
Qed.

Lemma append_length (a b : string) :
  String.length (a +:+ b) = String.length a + String.length b.
Proof. induction a as [|c a IH]; simpl; [reflexivity | now rewrite IH]. Qed.

Lemma before_first_length (sep : ascii) (s r : string) :
  before_first sep s r -> String.length r <= String.length s.
Proof.
  intros [_ [->|[rest ->]]]; [lia |]. rewrite append_length. lia.
Qed.

(** The first segment of a string that begins with a part without the
    separator, followed by the separator. *)
Lemma split_hd_app (sep : ascii) (a rest : string) :
  has_char sep a = false ->
  hd "" (split sep (a +:+ String sep rest)) = a.
Proof.
  intros H. apply (before_first_unique sep (a +:+ String sep rest)).
  - apply split_hd.
  - split; [assumption |]. right. now exists rest.
Qed.

Lemma split_hd_absent (sep : ascii) (a : string) :
  has_char sep a = false -> hd "" (split sep a) = a.
Proof. intros H. exact (before_first_no_sep _ _ _ H (split_hd sep a)). Qed.

Lemma split_hd_empty (sep : ascii) (s : string) :
  hd "" (split sep s) = "" <-> s = "" \/ starts_with sep s = true.
Proof.
  destruct s as [|c s]; cbn [split starts_with hd].
  - split; auto.
  - destruct (Ascii.eqb c sep); cbn [hd]; split; auto; try discriminate.
    intros [H|H]; discriminate.
Qed.

(** The date of a string has no space and no colon. *)
Lemma get_exif_date_clean (s : string) :
  exists r,
    get_exif_date (IfdTag (VStr s)) = Ok (Some r) /\
    has_char " " r = false /\ has_char ":" r = false.
Proof.
  rewrite get_exif_date_str. eexists. split; [reflexivity |].
  destruct (split_hd " " s) as [Hn Hs]. split.
  - apply has_char_replace_other; [discriminate | assumption].
  - apply has_char_replace_old. discriminate.
Qed.

End DateFacts.

(** X4. The date that [get_exif_date] makes of a string has no space and no
    colon in it, and is not longer than the string. *)
Theorem exif_date_shape (s : string) :
  exists r,
    get_exif_date (IfdTag (VStr s)) = Ok (Some r) /\
    has_char " " r = false /\ has_char ":" r = false /\
    String.length r <= String.length s.
Proof.
  destruct (get_exif_date_clean s) as (r & E & Hs & Hc). exists r.
  repeat (split; [assumption |]).
  rewrite get_exif_date_str in E. injection E as <-.
  rewrite replace_length. apply (before_first_length " "), split_hd.
Qed.

(** X5. [get_exif_date] leaves its own results alone: the date of a string
    that is already a date of [get_exif_date] is that string. *)
Theorem exif_date_idempotent (s r : string) :
  get_exif_date (IfdTag (VStr s)) = Ok (Some r) ->
  get_exif_date (IfdTag (VStr r)) = Ok (Some r).
Proof.
  intros H. destruct (get_exif_date_clean s) as (r' & E & Hs & Hc).
  rewrite E in H. injection H as ->.
  rewrite get_exif_date_str, split_hd_absent by assumption.
  now rewrite replace_absent.
Qed.

Lemma exif_date_idempotent_witness :
  get_exif_date Sample.date_time = Ok (Some "2023-07-04") /\
  get_exif_date (IfdTag (VStr "2023-07-04")) = Ok (Some "2023-07-04").
Proof.
  assert (get_exif_date Sample.date_time = Ok (Some "2023-07-04")) as H
    by reflexivity.
  split; [exact H |].
  exact (exif_date_idempotent "2023:07:04 12:30:00" "2023-07-04" H).
Defined.

(** X6. For a value made of three parts without space or colon, joined by
    colons and followed by a space and anything, as an EXIF timestamp is,
    the date is the three parts joined by dashes; the same holds when
    nothing follows the third part. *)
Theorem exif_date_of_timestamp (y mo d rest : string) :
  has_char " " y = false -> has_char ":" y = false ->
  has_char " " mo = false -> has_char ":" mo = false ->
  has_char " " d = false -> has_char ":" d = false ->
  get_exif_date
    (IfdTag (VStr (y +:+ ":" +:+ mo +:+ ":" +:+ d +:+ " " +:+ rest))) =
    Ok (Some (y +:+ "-" +:+ mo +:+ "-" +:+ d)) /\
  get_exif_date (IfdTag (VStr (y +:+ ":" +:+ mo +:+ ":" +:+ d))) =
    Ok (Some (y +:+ "-" +:+ mo +:+ "-" +:+ d)).
Proof.
  intros Sy Cy Sm Cm Sd Cd.
  assert (has_char " " (y +:+ ":" +:+ mo +:+ ":" +:+ d) = false) as S.
  { rewrite !has_char_app, Sy, Sm, Sd. reflexivity. }
  assert (replace ":" "-" (y +:+ ":" +:+ mo +:+ ":" +:+ d) =
          y +:+ "-" +:+ mo +:+ "-" +:+ d) as R.
  { rewrite !replace_app, (replace_absent ":" "-" y Cy),
      (replace_absent ":" "-" mo Cm), (replace_absent ":" "-" d Cd).
    reflexivity. }
  split.
  - rewrite get_exif_date_str.
    replace (y +:+ ":" +:+ mo +:+ ":" +:+ d +:+ " " +:+ rest)
      with ((y +:+ ":" +:+ mo +:+ ":" +:+ d) +:+ String " " rest)
      by now rewrite !append_assoc.
    now rewrite split_hd_app, R.
  - now rewrite get_exif_date_str, split_hd_absent, R.
Qed.

Lemma exif_date_of_timestamp_witness :
  get_exif_date (IfdTag (VStr "2023:07:04 12:30:00")) = Ok (Some "2023-07-04").
Proof.
  exact (proj1 (exif_date_of_timestamp "2023" "07" "04" "12:30:00"
                  eq_refl eq_refl eq_refl eq_refl eq_refl eq_refl)).
Defined.

Section MoreScriptFacts.

Variable env : Env.

Lemma renames_app (t1 t2 : list event) :
  renames (t1 ++ t2) = renames t1 ++ renames t2.
Proof. unfold renames. apply flat_map_app. Qed.

Lemma reverse_calls_app (t1 t2 : list event) :
  reverse_calls (t1 ++ t2) = reverse_calls t1 ++ reverse_calls t2.
Proof. unfold reverse_calls. apply flat_map_app. Qed.

Lemma listed_app (t1 t2 : list event) :
  listed (t1 ++ t2) = listed t1 ++ listed t2.
Proof. unfold listed. apply flat_map_app. Qed.

Lemma renames_parse_exif_data (tags : gmap string tag_obj) :
  renames (snd (parse_exif_data env tags)) = [].
Proof.
  now destruct (parse_exif_data_events env tags) as [->|(lat & lon & ->)].
Qed.

(** A date that is [None] or the empty string: no rename in the turn. *)
Lemma process_photo_no_rename (workdir photo_file : string)
    (tags : gmap string tag_obj) (d : option string) :
  process_file env (path_join workdir photo_file) = Ok tags ->
  image_taken_date_of tags = Ok d ->
  when_true d = None ->
  renames (snd (process_photo env workdir photo_file)) = [].
Proof.
  intros Hp Hd Hw. rewrite process_photo_cases, Hp.
  destruct (Nat.eqb (size tags) 0); [reflexivity |].
  pose proof (renames_parse_exif_data tags) as Hr.
  destruct (parse_exif_data env tags) as [[parsed|e] tr] eqn:E; cbn [snd] in *.
  - apply parse_exif_data_date in E. rewrite Hd in E. injection E as ->.
    rewrite rename_photo_cases, Hw.
    change (renames (([] ++ tr) ++ []) = []). now rewrite app_nil_r.
  - exact Hr.
Qed.

End MoreScriptFacts.

Lemma replace_empty (old new : ascii) (s : string) :
  replace old new s = "" <-> s = "".
Proof. destruct s; cbn; split; congruence. Qed.

(** X7. The date is the empty string exactly when the value of the field is
    empty or begins with a space; the photo of such a field is not
    renamed. *)
Theorem blank_date_not_renamed (s : string) :
  (get_exif_date (IfdTag (VStr s)) = Ok (Some "") <->
   s = "" \/ starts_with " " s = true) /\
  (forall env workdir photo_file tags,
     process_file env (path_join workdir photo_file) = Ok tags ->
     chosen_date_tag tags = Some (IfdTag (VStr s)) ->
     s = "" \/ starts_with " " s = true ->
     renames (snd (process_photo env workdir photo_file)) = []).
Proof.
  assert (get_exif_date (IfdTag (VStr s)) = Ok (Some "") <->
          s = "" \/ starts_with " " s = true) as K.
  { rewrite get_exif_date_str, <- split_hd_empty. split.
    - intros [= H]. now apply replace_empty in H.
    - intros ->. reflexivity. }
  split; [exact K |].
  intros env workdir photo_file tags Hp Hc Hs.
  apply (process_photo_no_rename env workdir photo_file tags (Some ""));
    [assumption | | reflexivity].
  rewrite image_taken_date_of_chosen, Hc. now apply K.
Qed.

(** A field that holds a time after a space: no rename. *)
Lemma blank_date_not_renamed_witness :
  get_exif_date (IfdTag (VStr " 12:30:00")) = Ok (Some "") /\
  renames (snd (process_photo Cases.env_blank_date "/photos" "a.jpg")) = [].
Proof.
  destruct (blank_date_not_renamed " 12:30:00") as [H1 H2].
  split; [apply H1; right; reflexivity |].
  apply (H2 Cases.env_blank_date "/photos" "a.jpg" Cases.tags_blank_date);
    [reflexivity | reflexivity | right; reflexivity].
Defined.

(** X8. What [parse_exif_data] returns keeps three invariants: a date has no
    space and no colon; an address has no comma and comes with one call
    of the geocoder, made with two coordinates that are not zero; without an
    address, the geocoder was not called. *)
Theorem parsed_exif_invariants (env : Env) (tags : gmap string tag_obj)
    (p : ParsedExif) (tr : list event) :
  parse_exif_data env tags = (Ok p, tr) ->
  (forall d, date p = Some d ->
             has_char " " d = false /\ has_char ":" d = false) /\
  (forall a, address p = Some a ->
             has_char "," a = false /\
             exists lat lon, tr = [EvReverse lat lon] /\
                             truthy lat = true /\ truthy lon = true) /\
  (address p = None -> tr = []).
Proof.
  intros H. split.
  - intros d Hd. pose proof (parse_exif_data_date _ _ _ _ H) as E.
    rewrite Hd, image_taken_date_of_chosen in E.
    destruct (chosen_date_tag tags) as [[[s|l]|b]|]; try discriminate.
    destruct (get_exif_date_clean s) as (r & Er & Hs & Hc).
    rewrite Er in E. injection E as ->. now split.
  - destruct (parse_exif_data_cases env tags) as (d & _ & Hp).
    rewrite Hp in H. clear Hp.
    destruct (gps_coords_of tags) as [[[lat|] [lon|]]|e];
      try (injection H as <- <-; split; [intros a [=] | reflexivity]).
    + destruct (truthy lat && truthy lon)%bool eqn:T;
        [|injection H as <- <-; split; [intros a [=] | reflexivity]].
      apply andb_true_iff in T as [T1 T2].
      destruct (reverse env lat lon) as [[loc|]|e]; try discriminate.
      injection H as <- <-. cbn [address]. split; [|discriminate].
      intros a [= <-]. split; [apply (split_hd "," loc) |].
      now exists lat, lon.
    + destruct (is_KeyError e); [|discriminate].
      injection H as <- <-. split; [intros a [=] | reflexivity].
Qed.

Lemma parsed_exif_invariants_witness :
  exists lat lon,
    parse_exif_data Sample.env_ok Sample.tags_springfield =
      (Ok (mkParsedExif (Some "2023-07-04") (Some "Springfield")),
       [EvReverse lat lon]) /\
    has_char "," "Springfield" = false /\
    truthy lat = true /\ truthy lon = true.
Proof.
  assert (parse_exif_data Sample.env_ok Sample.tags_springfield =
            (Ok (mkParsedExif (Some "2023-07-04") (Some "Springfield")),
             [EvReverse (S754_finite false 5598776540505152 (-47))
                        (S754_finite true 6308557915527578 (-46))])) as E
    by (vm_compute; reflexivity).
  destruct (parsed_exif_invariants _ _ _ _ E) as (_ & H & _).
  destruct (H "Springfield" eq_refl) as (Hc & lat & lon & [= <- <-] & T1 & T2).
  eexists _, _. split; [exact E |]. split; [exact Hc |]. split; assumption.
Defined.

(** X9. [get_address] calls the geocoder once.  It raises exactly when the
    geocoder raises, with the same error, or finds nothing, with
    [AttributeError]: its [except IndexError] branch is never taken.  What
    it returns is the part of the address found before the first comma. *)
Theorem get_address_outcomes (env : Env) (lat lon : float) :
  snd (get_address env lat lon) = [EvReverse lat lon] /\
  (forall e, fst (get_address env lat lon) = Raise e <->
             reverse env lat lon = Raise e \/
             (reverse env lat lon = Ok None /\ e = AttributeError)) /\
  (forall r, fst (get_address env lat lon) = Ok r <->
             exists a, reverse env lat lon = Ok (Some a) /\
                       r = hd "" (split "," a) /\ before_first "," a r).
Proof.
  rewrite get_address_cases. cbn [fst snd]. split; [reflexivity |].
  destruct (reverse env lat lon) as [[a|]|e0]; split.
  - intros e. split; [discriminate | intros [H|[H _]]; discriminate].
  - intros r. split.
    + intros [= <-]. exists a.
      split; [reflexivity | split; [reflexivity | apply split_hd]].
    + intros (a' & [= <-] & -> & _). reflexivity.
  - intros e. split.
    + intros [= <-]. right. now split.
    + intros [H|[_ ->]]; [discriminate | reflexivity].
  - intros r. split; [discriminate | intros (a' & H & _); discriminate].
  - intros e. split.
    + intros [= <-]. now left.
    + intros [[= <-]|[H _]]; [reflexivity | discriminate].
  - intros r. split; [discriminate | intros (a' & H & _); discriminate].
Qed.

Lemma size_lookup_Some (tags : gmap string tag_obj) (key : string) (t : tag_obj) :
  tags !! key = Some t -> Nat.eqb (size tags) 0 = false.
Proof.
  intros H. apply Nat.eqb_neq. intros E.
  apply map_size_empty_iff in E. subst tags. now rewrite lookup_empty in H.
Qed.

(** X10. A photo whose two coordinates are decoded and not zero, while the
    geocoder raises or finds nothing: the turn of the loop raises after the
    call of the geocoder, and the photo is not renamed, whatever its
    date. *)
Theorem geocoder_failure_aborts_photo (env : Env) (workdir photo_file : string)
    (tags : gmap string tag_obj) (lat lon : float) :
  process_file env (path_join workdir photo_file) = Ok tags ->
  gps_coords_of tags = Ok (Some lat, Some lon) ->
  truthy lat = true -> truthy lon = true ->
  (forall a, reverse env lat lon <> Ok (Some a)) ->
  exists e,
    process_photo env workdir photo_file =
      (Raise e, [EvOpen (path_join workdir photo_file); EvReverse lat lon]) /\
    (reverse env lat lon = Raise e \/
     (reverse env lat lon = Ok None /\ e = AttributeError)).
Proof.
  intros Hp Hc T1 T2 Hr. rewrite process_photo_cases, Hp.
  destruct (gps_coords_of_Ok tags _ _ Hc) as (lat_tag & _ & _ & _ & Hl & _).
  rewrite (size_lookup_Some _ _ _ Hl).
  destruct (parse_exif_data_cases env tags) as (d & _ & ->).
  rewrite Hc, T1, T2. cbn [andb].
  destruct (reverse env lat lon) as [[a|]|e].
  - now contradiction (Hr a).
  - exists AttributeError. split; [reflexivity |]. right. now split.
  - exists e. split; [reflexivity |]. now left.
Qed.

Lemma geocoder_failure_aborts_photo_witness :
  exists lat lon,
    process_photo Cases.env_geocoder_down "/photos" "Photo.JPG" =
      (Raise GeocoderError, [EvOpen "/photos/Photo.JPG"; EvReverse lat lon]) /\
    main Cases.env_geocoder_down =
      (Raise GeocoderError,
       [EvListdir "/photos"; EvOpen "/photos/Photo.JPG"; EvReverse lat lon]).
Proof.
  destruct (geocoder_failure_aborts_photo Cases.env_geocoder_down "/photos"
              "Photo.JPG" Sample.tags_springfield
              (S754_finite false 5598776540505152 (-47))
              (S754_finite true 6308557915527578 (-46)))
    as (e & H & [R|[R _]]);
    try reflexivity; try (intros a; discriminate); try discriminate R.
  injection R as <-. eexists _, _. split; [exact H |].
  vm_compute. reflexivity.
Defined.

Section RenameFacts.

#[local] Arguments String.append : simpl nomatch.

Lemma when_true_Some (o : option string) (d : string) :
  when_true o = Some d -> o = Some d /\ d <> "".
Proof.
  destruct o as [s|]; cbn; [|discriminate].
  destruct (String.eqb_spec s ""); [discriminate |]. intros [= <-]. now split.
Qed.

Lemma append_empty (a b : string) : a +:+ b = "" -> a = "".
Proof. destruct a; [reflexivity | discriminate]. Qed.

(** What [rename_photo] does: nothing, or one rename to a name made of a
    prefix that begins with the date, an underscore and the old name. *)
Lemma rename_photo_shape (env : Env) (wdir old_name : string) (p : ParsedExif) :
  match when_true (date p) with
  | None => rename_photo env wdir old_name p = (Ok tt, [])
  | Some d =>
      exists rest,
        rename_photo env wdir old_name p =
        renames_to env wdir old_name ((d +:+ rest) +:+ "_" +:+ old_name)
  end.
Proof.
  rewrite rename_photo_cases.
  destruct (when_true (date p)) as [d|]; [|reflexivity].
  destruct (when_true (address p)) as [a|]; cbn zeta.
  - exists ("-" +:+ a). unfold renames_to. now rewrite !append_assoc.
  - exists "". unfold renames_to. now rewrite append_nil_r.
Qed.

Lemma path_join_relative (a b : string) :
  starts_with "/" b = false -> path_join a b = dir_prefix a +:+ b.
Proof.
  unfold path_join, dir_prefix. destruct b as [|c b]; cbn [starts_with].
  - intros _. destruct (String.eqb a "" || endswith a "/")%bool;
      [reflexivity | now rewrite append_assoc].
  - intros H.
    assert (match c with
            | "/"%char => String c b
            | _ => if (String.eqb a "" || endswith a "/")%bool
                   then a +:+ String c b else a +:+ "/" +:+ String c b
            end =
            if (String.eqb a "" || endswith a "/")%bool
            then a +:+ String c b else a +:+ "/" +:+ String c b) as ->.
    { destruct (Ascii.eqb_spec c "/") as [->|Hc]; [discriminate |].
      destruct c as [[] [] [] [] [] [] [] []]; try reflexivity.
      now contradiction Hc. }
    destruct (String.eqb a "" || endswith a "/")%bool;
      [reflexivity | now rewrite append_assoc].
Qed.

Lemma path_join_absolute (a b : string) :
  starts_with "/" b = true -> path_join a b = b.
Proof.
  unfold path_join. destruct b as [|c b]; cbn [starts_with]; [discriminate |].
  intros H. apply Ascii.eqb_eq in H. now subst c.
Qed.

Lemma path_join_length (a b : string) :
  String.length b <= String.length (path_join a b).
Proof.
  destruct (starts_with "/" b) eqn:E.
  - rewrite path_join_absolute by assumption. lia.
  - rewrite path_join_relative, append_length by assumption. lia.
Qed.

Lemma append_inv_tail (x y s : string) : x +:+ s = y +:+ s -> x = y.
Proof.
  revert y. induction x as [|c x IH]; intros [|d y] H; cbn in H.
  - reflexivity.
  - apply (f_equal String.length) in H. cbn in H.
    rewrite append_length in H. lia.
  - apply (f_equal String.length) in H. cbn in H.
    rewrite append_length in H. lia.
  - injection H as -> H. f_equal. now apply IH.
Qed.

Lemma append_last_char (x y : string) (c d : ascii) :
  x +:+ String c "" = y +:+ String d "" -> c = d.
Proof.
  revert y. induction x as [|e x IH]; intros [|e' y] H; cbn in H.
  - now injection H.
  - injection H as _ H. destruct y; discriminate.
  - injection H as _ H. destruct x; discriminate.
  - injection H as _ H. now apply IH in H.
Qed.

Lemma dir_prefix_cases (a : string) :
  dir_prefix a = "" \/ exists x, dir_prefix a = x +:+ "/".
Proof.
  unfold dir_prefix. destruct (String.eqb_spec a "") as [->|Ha]; cbn [orb].
  - now left.
  - right. destruct (endswith a "/") eqn:E; [|now exists a].
    now apply endswith_spec in E.
Qed.

(** The source and the target of a rename are never the same path. *)
Lemma rename_changes_path (wdir old_name pre : string) :
  path_join wdir old_name <> path_join wdir (pre +:+ "_" +:+ old_name).
Proof.
  intros H.
  assert (String.length old_name < String.length (pre +:+ "_" +:+ old_name)) as L.
  { rewrite !append_length. cbn. lia. }
  destruct (starts_with "/" old_name) eqn:Eo.
  - rewrite (path_join_absolute _ old_name Eo) in H.
    pose proof (path_join_length wdir (pre +:+ "_" +:+ old_name)) as K.
    rewrite <- H in K. lia.
  - rewrite (path_join_relative _ old_name Eo) in H.
    destruct (starts_with "/" (pre +:+ "_" +:+ old_name)) eqn:En.
    + rewrite (path_join_absolute _ _ En) in H.
      replace (pre +:+ "_" +:+ old_name) with ((pre +:+ "_") +:+ old_name) in H
        by now rewrite append_assoc.
      apply append_inv_tail in H.
      destruct (dir_prefix_cases wdir) as [E|[x E]]; rewrite E in H.
      * symmetry in H. apply append_empty in H. subst pre. discriminate.
      * apply append_last_char in H. discriminate.
    + rewrite (path_join_relative _ _ En) in H.
      apply (f_equal String.length) in H. rewrite !append_length in H.
      rewrite !append_length in L. lia.
Qed.

Lemma no_slash_relative (s : string) :
  has_char "/" s = false -> starts_with "/" s = false.
Proof.
  destruct s as [|c s]; [reflexivity |]. cbn [has_char starts_with].
  intros H. now apply orb_false_iff in H as [H _].
Qed.

Lemma starts_with_app (c : ascii) (a b : string) :
  a <> "" -> starts_with c (a +:+ b) = starts_with c a.
Proof. destruct a; [congruence | reflexivity]. Qed.

Lemma ends_with_nocase_app (pre s suffix : string) :
  ends_with_nocase s suffix -> ends_with_nocase (pre +:+ s) suffix.
Proof.
  intros (p & suf & -> & H). exists (pre +:+ p), suf.
  now rewrite append_assoc.
Qed.

Lemma photo_name_app (pre s : string) : photo_name s -> photo_name (pre +:+ s).
Proof.
  unfold photo_name. intros [H|[H|H]]; eauto using ends_with_nocase_app.
Qed.

End RenameFacts.

(** X12. A photo with a date that is a non-empty string is renamed by one
    call of [os.rename] whose outcome is the outcome of [rename_photo], from
    the old name to the new name: the date, then a hyphen and the address
    when there is one, then an underscore and the old name.  The two paths
    are never the same path.  The new name has a slash exactly when the
    date, the address or the old name has one; when none has, the two paths
    are the two names behind the same directory part, so that the photo is
    renamed inside the working directory.  Nothing of the kind holds for a
    date or an address with a slash. *)
Theorem rename_in_place (env : Env) (wdir old_name : string) (p : ParsedExif)
    (d : string) :
  when_true (date p) = Some d ->
  exists rest new_name,
    rest = match when_true (address p) with
           | Some a => "-" +:+ a
           | None => ""
           end /\
    new_name = (d +:+ rest) +:+ "_" +:+ old_name /\
    rename_photo env wdir old_name p =
      (rename env (path_join wdir old_name) (path_join wdir new_name),
       [EvRename (path_join wdir old_name) (path_join wdir new_name)]) /\
    path_join wdir old_name <> path_join wdir new_name /\
    has_char "/" new_name =
      (has_char "/" d || has_char "/" rest || has_char "/" old_name)%bool /\
    (has_char "/" d = false -> has_char "/" rest = false ->
     has_char "/" old_name = false ->
     has_char "/" new_name = false /\
     path_join wdir old_name = dir_prefix wdir +:+ old_name /\
     path_join wdir new_name = dir_prefix wdir +:+ new_name).
Proof.
  intros Hd.
  set (rest := match when_true (address p) with
               | Some a => "-" +:+ a
               | None => ""
               end).
  exists rest, ((d +:+ rest) +:+ "_" +:+ old_name).
  assert (has_char "/" ((d +:+ rest) +:+ "_" +:+ old_name) =
          (has_char "/" d || has_char "/" rest || has_char "/" old_name)%bool)
    as Hc.
  { rewrite !has_char_app. change (has_char "/" "_") with false.
    now rewrite orb_false_l. }
  split; [reflexivity |]. split; [reflexivity |]. split; [|split; [|split]].
  - rewrite rename_photo_cases, Hd. subst rest.
    destruct (when_true (address p)) as [a|]; cbn zeta.
    + now rewrite !append_assoc.
    + now rewrite append_nil_r.
  - apply rename_changes_path.
  - exact Hc.
  - intros H1 H2 H3. rewrite Hc, H1, H2, H3.
    split; [reflexivity |].
    split; apply path_join_relative, no_slash_relative;
      [exact H3 | now rewrite Hc, H1, H2, H3].
Qed.

Lemma rename_in_place_witness :
  rename_photo Sample.env_ok "/photos" "img001.jpg"
    (mkParsedExif (Some "2023-07-04") (Some "Springfield")) =
    (Ok tt, [EvRename "/photos/img001.jpg"
               "/photos/2023-07-04-Springfield_img001.jpg"]) /\
  "/photos/img001.jpg" <> "/photos/2023-07-04-Springfield_img001.jpg" /\
  has_char "/" "2023-07-04-Springfield_img001.jpg" = false.
Proof.
  destruct (rename_in_place Sample.env_ok "/photos" "img001.jpg"
              (mkParsedExif (Some "2023-07-04") (Some "Springfield"))
              "2023-07-04" eq_refl)
    as (rest & new_name & -> & -> & H & _ & _ & K).
  destruct (K eq_refl eq_refl eq_refl) as (N & _ & _).
  split; [reflexivity |]. split; [discriminate | exact N].
Defined.

(** X13. The new name of a candidate is the name of a candidate again: it
    still ends with the extension of the old name.  So [get_photo_files]
    selects the renamed photo from every listing that holds the new name;
    whether a later listing of the working directory holds it is not said
    here, and it does not when the date or the address has a slash. *)
Theorem renamed_photo_stays_candidate (env : Env) (wdir old_name : string)
    (p : ParsedExif) (d : string) :
  when_true (date p) = Some d ->
  candidate_name old_name ->
  exists new_name,
    renames (snd (rename_photo env wdir old_name p)) =
      [(path_join wdir old_name, path_join wdir new_name)] /\
    candidate_name new_name /\
    forall env' wdir' file_names,
      listdir env' wdir' = Ok file_names -> In new_name file_names ->
      exists photo_files,
        get_photo_files env' wdir' = (Ok photo_files, [EvListdir wdir']) /\
        In new_name photo_files.
Proof.
  intros Hd Hp. pose proof (rename_photo_shape env wdir old_name p) as H.
  rewrite Hd in H. destruct H as [rest H].
  exists ((d +:+ rest) +:+ "_" +:+ old_name). rewrite H.
  split; [reflexivity |].
  assert (candidate_name ((d +:+ rest) +:+ "_" +:+ old_name)) as K.
  { apply candidate_name_spec. apply candidate_name_spec in Hp.
    now apply photo_name_app, photo_name_app. }
  split; [exact K |].
  intros env' wdir' file_names Hl Hin. exists (get_photo_files_of file_names).
  split.
  - unfold get_photo_files, bind, call, ret. rewrite Hl. reflexivity.
  - unfold get_photo_files_of. apply filter_In. split; [exact Hin |].
    now apply is_candidate_spec.
Qed.

Lemma renamed_photo_stays_candidate_witness :
  candidate_name "Photo.JPG" /\
  exists new_name,
    renames (snd (rename_photo Sample.env_ok "/photos" "Photo.JPG"
                    (mkParsedExif (Some "2023-07-04") None))) =
      [("/photos/Photo.JPG", path_join "/photos" new_name)] /\
    candidate_name new_name.
Proof.
  assert (candidate_name "Photo.JPG") as P by now apply is_candidate_spec.
  destruct (renamed_photo_stays_candidate Sample.env_ok "/photos" "Photo.JPG"
              (mkParsedExif (Some "2023-07-04") None) "2023-07-04" eq_refl P)
    as (new_name & E & H & _).
  split; [exact P |]. exists new_name. split; [exact E | exact H].
Defined.

Section LoopFacts.

Variable env : Env.

(** The calls of [parse_exif_data]: none, or one call of the geocoder with
    two coordinates that are not zero. *)
Lemma parse_exif_data_calls (tags : gmap string tag_obj) :
  snd (parse_exif_data env tags) = [] \/
  exists lat lon,
    snd (parse_exif_data env tags) = [EvReverse lat lon] /\
    truthy lat = true /\ truthy lon = true.
Proof.
  destruct (parse_exif_data_cases env tags) as (d & _ & ->).
  destruct (gps_coords_of tags) as [[[lat|] [lon|]]|e]; cbn [snd]; auto.
  - destruct (truthy lat && truthy lon)%bool eqn:T; cbn [snd]; auto.
    apply andb_true_iff in T as [T1 T2]. right. now exists lat, lon.
  - destruct (is_KeyError e); auto.
Qed.

(** The trace of one turn of the loop: the photo is opened, then the
    geocoder is called at most once, then the photo is renamed at most
    once, and the turn ends as the rename ends. *)
Lemma process_photo_shape (workdir photo_file : string) :
  exists geo ren,
    snd (process_photo env workdir photo_file) =
      EvOpen (path_join workdir photo_file) :: geo ++ ren /\
    (geo = [] \/
     exists lat lon, geo = [EvReverse lat lon] /\
                     truthy lat = true /\ truthy lon = true) /\
    (ren = [] \/
     exists pre,
       ren = [EvRename (path_join workdir photo_file)
                (path_join workdir (pre +:+ "_" +:+ photo_file))] /\
       fst (process_photo env workdir photo_file) =
         rename env (path_join workdir photo_file)
           (path_join workdir (pre +:+ "_" +:+ photo_file))).
Proof.
  rewrite process_photo_cases.
  destruct (process_file env _) as [tags|e];
    [|exists [], []; cbn [fst snd app]; auto].
  destruct (Nat.eqb (size tags) 0); [exists [], []; cbn [fst snd app]; auto |].
  pose proof (parse_exif_data_calls tags) as Hg.
  destruct (parse_exif_data env tags) as [[parsed|e] tr]; cbn [fst snd] in *.
  - exists tr. pose proof (rename_photo_shape env workdir photo_file parsed) as Hr.
    destruct (when_true (date parsed)) as [d|].
    + destruct Hr as [rest ->]. unfold renames_to. cbn [fst snd].
      eexists. split; [reflexivity |]. split; [exact Hg |].
      right. now exists (d +:+ rest).
    + rewrite Hr. exists []. cbn [fst snd]. auto.
  - exists tr, []. rewrite app_nil_r. auto.
Qed.

Lemma listed_process_photo (workdir photo_file : string) :
  listed (snd (process_photo env workdir photo_file)) = [].
Proof.
  destruct (process_photo_shape workdir photo_file)
    as (geo & ren & -> & Hg & Hr).
  cbn [listed flat_map app]. fold (listed (geo ++ ren)). rewrite listed_app.
  destruct Hg as [->|(lat & lon & -> & _)];
    destruct Hr as [->|(pre & -> & _)]; reflexivity.
Qed.

Lemma reverse_calls_process_photo (workdir photo_file : string) :
  length (reverse_calls (snd (process_photo env workdir photo_file))) <= 1.
Proof.
  destruct (process_photo_shape workdir photo_file)
    as (geo & ren & -> & Hg & Hr).
  cbn [reverse_calls flat_map app]. fold (reverse_calls (geo ++ ren)).
  rewrite reverse_calls_app.
  destruct Hg as [->|(lat & lon & -> & _)];
    destruct Hr as [->|(pre & -> & _)]; cbn; lia.
Qed.

Lemma renames_process_photo (workdir photo_file : string) :
  renames (snd (process_photo env workdir photo_file)) = [] \/
  exists pre,
    renames (snd (process_photo env workdir photo_file)) =
      [(path_join workdir photo_file,
        path_join workdir (pre +:+ "_" +:+ photo_file))].
Proof.
  destruct (process_photo_shape workdir photo_file)
    as (geo & ren & -> & Hg & Hr).
  cbn [renames flat_map app]. fold (renames (geo ++ ren)). rewrite renames_app.
  destruct Hg as [->|(lat & lon & -> & _)];
    destruct Hr as [->|(pre & -> & _)]; cbn; eauto.
Qed.

(** The trace of the loop is the traces of the turns taken, one after the
    other; the turns taken are the first photos of the list, all of them
    unless a turn raises. *)
Lemma for_each_trace {A} (l : list A) (body : A -> M unit) :
  exists done rest,
    l = done ++ rest /\
    snd (for_each l body) = flat_map (fun x => snd (body x)) done /\
    (fst (for_each l body) = Ok tt -> rest = []).
Proof.
  induction l as [|x l (done & rest & Hl & Ht & Hok)].
  - exists [], []. now repeat split.
  - cbn [for_each]. unfold bind. destruct (fst (body x)) as [[]|e] eqn:E.
    + exists (x :: done), rest. cbn [fst snd flat_map]. rewrite Ht, Hl.
      repeat split. rewrite <- Hl. exact Hok.
    + exists [x], l. cbn [fst snd flat_map]. rewrite app_nil_r.
      repeat split. discriminate.
Qed.

End LoopFacts.

(** X11. One turn of the loop opens its photo first, then calls the
    geocoder at most once, with two coordinates that are not zero, then
    renames the photo at most once, and then ends as [os.rename] ends.  A
    photo that cannot be read, or whose tags are empty, is only opened. *)
Theorem process_photo_trace (env : Env) (workdir photo_file : string) :
  (exists geo ren,
     snd (process_photo env workdir photo_file) =
       EvOpen (path_join workdir photo_file) :: geo ++ ren /\
     (geo = [] \/
      exists lat lon, geo = [EvReverse lat lon] /\
                      truthy lat = true /\ truthy lon = true) /\
     (ren = [] \/
      exists pre,
        ren = [EvRename (path_join workdir photo_file)
                 (path_join workdir (pre +:+ "_" +:+ photo_file))] /\
        fst (process_photo env workdir photo_file) =
          rename env (path_join workdir photo_file)
            (path_join workdir (pre +:+ "_" +:+ photo_file)))) /\
  (forall e, process_file env (path_join workdir photo_file) = Raise e ->
     process_photo env workdir photo_file =
       (Raise e, [EvOpen (path_join workdir photo_file)])) /\
  (forall tags, process_file env (path_join workdir photo_file) = Ok tags ->
     size tags = 0 ->
     process_photo env workdir photo_file =
       (Ok tt, [EvOpen (path_join workdir photo_file)])).
Proof.
  split; [apply process_photo_shape |]. split.
  - intros e H. now rewrite process_photo_cases, H.
  - intros tags H Hs. now rewrite process_photo_cases, H, Hs.
Qed.

(** X14. When the directory can be listed, the script lists it once and
    touches nothing but the candidates: every file opened and every file
    renamed is a candidate of the listing, a rename keeps the old name at
    the end of the new one after an underscore, and there are at most as
    many renames, and as many calls of the geocoder, as candidates. *)
Theorem main_touches_only_candidates (env : Env) (file_names : list string) :
  listdir env (get_working_dir env) = Ok file_names ->
  let workdir := get_working_dir env in
  let photo_files := get_photo_files_of file_names in
  listed (snd (main env)) = [workdir] /\
  (forall p, In p (opened (snd (main env))) ->
     exists f, In f photo_files /\ In f file_names /\ p = path_join workdir f) /\
  (forall src dst, In (src, dst) (renames (snd (main env))) ->
     exists f pre, In f photo_files /\ In f file_names /\
                   src = path_join workdir f /\
                   dst = path_join workdir (pre +:+ "_" +:+ f)) /\
  length (renames (snd (main env))) <= length photo_files /\
  length (reverse_calls (snd (main env))) <= length photo_files.
Proof.
  intros Hl workdir photo_files.
  assert (forall f, In f photo_files -> In f file_names) as Hin.
  { intros f Hf. unfold photo_files, get_photo_files_of in Hf.
    now apply filter_In in Hf. }
  rewrite (main_cases env file_names Hl). fold photo_files workdir.
  destruct photo_files as [|f0 l0] eqn:E.
  { cbn. repeat split; try lia; intros; contradiction. }
  cbn zeta. cbn [snd].
  destruct (for_each_trace (f0 :: l0) (process_photo env workdir))
    as (done & rest & Hd & -> & _).
  rewrite Hd in Hin |- *. clear Hd E f0 l0.
  assert (forall f, In f done -> In f (done ++ rest)) as Hsub
    by (intros f Hf; apply in_or_app; now left).
  rewrite length_app.
  cbn [listed opened renames reverse_calls flat_map app].
  fold (listed (flat_map (fun x => snd (process_photo env workdir x)) done)).
  fold (opened (flat_map (fun x => snd (process_photo env workdir x)) done)).
  fold (renames (flat_map (fun x => snd (process_photo env workdir x)) done)).
  fold (reverse_calls (flat_map (fun x => snd (process_photo env workdir x)) done)).
  induction done as [|f done IH]; cbn [flat_map].
  - cbn. repeat split; try lia; intros; contradiction.
  - rewrite listed_app, opened_app, renames_app, reverse_calls_app.
    rewrite listed_process_photo, opened_process_photo.
    rewrite !length_app.
    pose proof (reverse_calls_process_photo env workdir f) as Hg.
    destruct IH as (I1 & I2 & I3 & I4 & I5).
    { intros g Hg'. apply Hin. cbn. now right. }
    { intros g Hg'. apply in_or_app. now left. }
    assert (In f ((f :: done) ++ rest)) as Hf by now left.
    split; [exact I1 |]. split; [|split].
    + intros p [<-|Hp].
      * exists f. repeat split; [exact Hf | now apply Hin].
      * destruct (I2 p Hp) as (g & G1 & G2 & G3).
        exists g. repeat split; [now right | | assumption].
        apply Hin. now right.
    + intros src dst Hs. apply in_app_or in Hs as [Hs|Hs].
      * destruct (renames_process_photo env workdir f) as [R|[pre R]];
          rewrite R in Hs; [contradiction |].
        destruct Hs as [[= <- <-]|[]]. exists f, pre.
        repeat split; [exact Hf | now apply Hin].
      * destruct (I3 src dst Hs) as (g & pre & G1 & G2 & G3 & G4).
        exists g, pre. repeat split; [now right | | assumption | assumption].
        apply Hin. now right.
    + cbn [length].
      destruct (renames_process_photo env workdir f) as [R|[pre R]];
        rewrite R; cbn [length]; lia.
Qed.

Lemma main_touches_only_candidates_witness :
  listed (snd (main Sample.env_ok)) = ["/photos"] /\
  renames (snd (main Sample.env_ok)) =
    [("/photos/Photo.JPG", "/photos/2023-07-04-Springfield_Photo.JPG");
     ("/photos/b.heic", "/photos/2023-07-04_b.heic")] /\
  length (reverse_calls (snd (main Sample.env_ok))) <= 2.
Proof.
  destruct (main_touches_only_candidates Sample.env_ok
              ["Photo.JPG"; "notes.txt"; "b.heic"] eq_refl)
    as (H1 & _ & _ & _ & H5).
  split; [exact H1 |]. split; [vm_compute; reflexivity | exact H5].
Defined.

(** X15. When the directory cannot be listed, the script ends with the
    error of the listing and the status 1, without the message of the empty
    directory and without opening a file. *)
Theorem main_listing_failure (env : Env) (e : exn) :
  listdir env (get_working_dir env) = Raise e ->
  main env = (Raise e, [EvListdir (get_working_dir env)]) /\
  exit_status (fst (main env)) = 1%Z /\
  exit_stderr (fst (main env)) = Traceback e /\
  opened (snd (main env)) = [].
Proof.
  intros H.
  assert (main env = (Raise e, [EvListdir (get_working_dir env)])) as E.
  { unfold main, get_photo_files, bind, call. cbn [fst snd]. now rewrite H. }
  rewrite E. now repeat split.
Qed.

Lemma main_listing_failure_witness :
  main Cases.env_no_directory = (Raise OSError, [EvListdir "/missing"]) /\
  exit_status (fst (main Cases.env_no_directory)) = 1%Z.
Proof.
  destruct (main_listing_failure Cases.env_no_directory OSError eq_refl)
    as (H1 & H2 & _).
  split; [exact H1 | exact H2].
Defined.

Section EndToEnd.

Variable env : Env.

Lemma when_true_nonempty (d : string) : d <> "" -> when_true (Some d) = Some d.
Proof.
  intros H. cbn. destruct (String.eqb_spec d ""); [contradiction | reflexivity].
Qed.

(** The date of a field that is neither empty nor begins with a space is
    not the empty string. *)
Lemma get_exif_date_nonempty (s : string) :
  s <> "" -> starts_with " " s = false ->
  exists d, get_exif_date (IfdTag (VStr s)) = Ok (Some d) /\ d <> "".
Proof.
  intros H1 H2. rewrite get_exif_date_str. eexists. split; [reflexivity |].
  intros E. apply replace_empty, split_hd_empty in E.
  destruct E as [E|E]; [contradiction | congruence].
Qed.

Lemma chosen_date_tag_size (tags : gmap string tag_obj) (t : tag_obj) :
  chosen_date_tag tags = Some t -> Nat.eqb (size tags) 0 = false.
Proof.
  unfold chosen_date_tag.
  destruct (tags !! "EXIF DateTimeOriginal") eqn:E1;
    [intros _; exact (size_lookup_Some _ _ _ E1) |].
  destruct (tags !! "EXIF DateTimeDigitized") eqn:E2;
    [intros _; exact (size_lookup_Some _ _ _ E2) |].
  intros E3. exact (size_lookup_Some _ _ _ E3).
Qed.

End EndToEnd.

(** X17. A photo with a usable date and without the latitude tag or its
    reference: the turn of the loop opens it, does not call the geocoder,
    renames it to the date, an underscore and the old name, and ends as
    [os.rename] ends. *)
Theorem photo_with_date_only (env : Env) (workdir photo_file s : string)
    (tags : gmap string tag_obj) :
  process_file env (path_join workdir photo_file) = Ok tags ->
  chosen_date_tag tags = Some (IfdTag (VStr s)) ->
  s <> "" -> starts_with " " s = false ->
  tags !! "GPS GPSLatitude" = None \/ tags !! "GPS GPSLatitudeRef" = None ->
  exists d,
    get_exif_date (IfdTag (VStr s)) = Ok (Some d) /\ d <> "" /\
    process_photo env workdir photo_file =
      (rename env (path_join workdir photo_file)
              (path_join workdir (d +:+ "_" +:+ photo_file)),
       [EvOpen (path_join workdir photo_file);
        EvRename (path_join workdir photo_file)
                 (path_join workdir (d +:+ "_" +:+ photo_file))]).
Proof.
  intros Hp Hc Hs1 Hs2 Hg.
  destruct (get_exif_date_nonempty s Hs1 Hs2) as (d & Hd & Hne).
  exists d. split; [exact Hd |]. split; [exact Hne |].
  rewrite process_photo_cases, Hp, (chosen_date_tag_size _ _ Hc).
  destruct (parse_exif_data_no_latitude env tags Hg) as [d' E].
  pose proof (parse_exif_data_date _ _ _ _ E) as K.
  rewrite image_taken_date_of_chosen, Hc, Hd in K. injection K as <-.
  rewrite E, rename_photo_cases. cbn [date address].
  now rewrite (when_true_nonempty d Hne).
Qed.

Lemma photo_with_date_only_witness :
  process_photo Sample.env_ok "/photos" "b.heic" =
    (Ok tt, [EvOpen "/photos/b.heic";
             EvRename "/photos/b.heic" "/photos/2023-07-04_b.heic"]).
Proof.
  destruct (photo_with_date_only Sample.env_ok "/photos" "b.heic"
              "2023:07:04 12:30:00" Sample.tags_date_only
              eq_refl eq_refl ltac:(discriminate) eq_refl
              (or_introl eq_refl))
    as (d & Hd & _ & H).
  injection Hd as <-. exact H.
Defined.

(** X18. A photo with a usable date and two decoded coordinates that are
    not zero, for which the geocoder finds an address: the turn of the loop
    opens it, calls the geocoder once with the two coordinates, and renames
    it to the date, a dash, the part of the address before the first comma,
    an underscore and the old name; when that part is empty, the dash and
    the part are left out. *)
Theorem photo_with_date_and_place (env : Env) (workdir photo_file s loc : string)
    (tags : gmap string tag_obj) (lat lon : float) :
  process_file env (path_join workdir photo_file) = Ok tags ->
  chosen_date_tag tags = Some (IfdTag (VStr s)) ->
  s <> "" -> starts_with " " s = false ->
  gps_coords_of tags = Ok (Some lat, Some lon) ->
  truthy lat = true -> truthy lon = true ->
  reverse env lat lon = Ok (Some loc) ->
  exists d place new_name,
    get_exif_date (IfdTag (VStr s)) = Ok (Some d) /\ d <> "" /\
    before_first "," loc place /\
    new_name = (if String.eqb place "" then d +:+ "_" +:+ photo_file
                else d +:+ "-" +:+ place +:+ "_" +:+ photo_file) /\
    process_photo env workdir photo_file =
      (rename env (path_join workdir photo_file) (path_join workdir new_name),
       [EvOpen (path_join workdir photo_file);
        EvReverse lat lon;
        EvRename (path_join workdir photo_file) (path_join workdir new_name)]).
Proof.
  intros Hp Hc Hs1 Hs2 Hg T1 T2 Hr.
  destruct (get_exif_date_nonempty s Hs1 Hs2) as (d & Hd & Hne).
  exists d, (hd "" (split "," loc)). eexists.
  split; [exact Hd |]. split; [exact Hne |]. split; [apply split_hd |].
  split; [reflexivity |].
  rewrite process_photo_cases, Hp, (chosen_date_tag_size _ _ Hc).
  destruct (parse_exif_data_cases env tags) as (d' & Hd' & ->).
  rewrite image_taken_date_of_chosen, Hc, Hd in Hd'. injection Hd' as <-.
  rewrite Hg, T1, T2, Hr. cbn [andb]. rewrite rename_photo_cases.
  cbn [date address fst snd app]. rewrite (when_true_nonempty d Hne).
  unfold when_true. now destruct (String.eqb (hd "" (split "," loc)) "").
Qed.

Lemma photo_with_date_and_place_witness :
  exists lat lon,
    process_photo Sample.env_ok "/photos" "Photo.JPG" =
      (Ok tt, [EvOpen "/photos/Photo.JPG"; EvReverse lat lon;
               EvRename "/photos/Photo.JPG"
                        "/photos/2023-07-04-Springfield_Photo.JPG"]).
Proof.
  destruct (photo_with_date_and_place Sample.env_ok "/photos" "Photo.JPG"
              "2023:07:04 12:30:00" "Springfield, Illinois, USA"
              Sample.tags_springfield
              (S754_finite false 5598776540505152 (-47))
              (S754_finite true 6308557915527578 (-46))
              eq_refl eq_refl ltac:(discriminate) eq_refl
              ltac:(vm_compute; reflexivity) eq_refl eq_refl eq_refl)
    as (d & place & new_name & Hd & _ & Hb & -> & H).
  injection Hd as <-.
  assert (place = "Springfield") as ->.
  { apply (before_first_unique "," "Springfield, Illinois, USA");
      [exact Hb |]. split; [reflexivity |]. right. now exists " Illinois, USA". }
  eexists _, _. exact H.
Defined.
